(** * QOSF task 3: the circuit simplifier of [qosf_task3.py]

    A shallow embedding of the Python functions [compiler],
    [removeZeroRotations], [removeDoubleCZ], [combineRotations] and
    [simplify], and the properties of the specification checked on it.

    Conventions of the embedding.
    - A qiskit gate is a record of its [name] and its [params]; an entry of
      [circuit.data] is a gate with the indices of the qubits it acts on.
      Gate objects of different entries are taken to be distinct objects, so
      the in-place update of [params] in [combineRotations] changes one
      entry only.
    - Angles are binary64 floats (Rocq's primitive floats), as in CPython.
    - Python integers are [Z]; list indexing follows Python: a negative
      index counts from the end, an index out of range raises [IndexError].
    - A raised exception is an [Error] result.  The [while] loops run on
      fuel; the fuel each function hands to its loop is shown to suffice
      ([OutOfFuel] is never returned).
    - Gate names are ASCII strings. *)

From Stdlib Require Import ZArith Lia Bool Ascii String DecimalString.
From Stdlib Require Import PrimFloat SpecFloat FloatOps Uint63 DecimalPos.
From stdpp Require Import base list.

Local Open Scope Z_scope.

(** ** Exceptions *)

Inductive exn : Type :=
| IndexError
| ValueError
| DecomposerFailure
| OutOfFuel.

Inductive result (A : Type) : Type :=
| OK (a : A)
| Error (e : exn).
Arguments OK {A} a.
Arguments Error {A} e.

Definition bind {A B : Type} (m : result A) (k : A -> result B) : result B :=
  match m with
  | OK a => k a
  | Error e => Error e
  end.

Notation "x <- m ;; k" := (bind m (fun x => k))
  (at level 100, m at next level, right associativity).

Definition of_option {A : Type} (e : exn) (o : option A) : result A :=
  match o with
  | Some a => OK a
  | None => Error e
  end.

(** ** Python lists *)

Module Py.

(** [l[k]]: the position a Python index denotes. *)
Definition index {A : Type} (l : list A) (k : Z) : result nat :=
  let n := Z.of_nat (length l) in
  if (0 <=? k) && (k <? n) then OK (Z.to_nat k)
  else if (- n <=? k) && (k <? 0) then OK (Z.to_nat (n + k))
  else Error IndexError.

Definition get {A : Type} (l : list A) (k : Z) : result A :=
  j <- index l k ;; of_option IndexError (l !! j).

(** [del l[k]] *)
Definition del {A : Type} (l : list A) (k : Z) : result (list A) :=
  j <- index l k ;; OK (delete j l).

(** [l.pop(k)], keeping only the list left behind: no caller reads the
    popped element. *)
Definition pop {A : Type} (l : list A) (k : Z) : result (list A) := del l k.

(** [l.pop()] *)
Definition pop_last {A : Type} (l : list A) : result (list A) := del l (-1).

(** [l[k] = x] *)
Definition set {A : Type} (l : list A) (k : Z) (x : A) : result (list A) :=
  j <- index l k ;; OK (<[j := x]> l).

(** Lookup by a qubit index, which is never negative. *)
Definition get_nat {A : Type} (l : list A) (q : nat) : result A :=
  of_option IndexError (l !! q).

(** [s[:2]] and [s[2:]] on strings. *)
Definition prefix2 (s : string) : string :=
  match s with
  | String a (String b _) => String a (String b EmptyString)
  | _ => s
  end.

Definition suffix2 (s : string) : string :=
  match s with
  | String _ (String _ r) => r
  | _ => EmptyString
  end.

(** [str(i)] for an integer. *)
Definition str (i : Z) : string := NilZero.string_of_int (Z.to_int i).

(** [int(s)] in base ten: optional blanks, an optional sign, digits that
    may be separated by single underscores, optional blanks. Anything else
    raises [ValueError]. *)
Definition is_space (c : ascii) : bool :=
  let n := nat_of_ascii c in
  ((9 <=? n) && (n <=? 13))%nat || (n =? 32)%nat.

Definition digit_of (c : ascii) : option Z :=
  let n := nat_of_ascii c in
  if ((48 <=? n) && (n <=? 57))%nat then Some (Z.of_nat n - 48) else None.

Fixpoint all_space (s : string) : bool :=
  match s with
  | EmptyString => true
  | String c r => is_space c && all_space r
  end.

Fixpoint skip_space (s : string) : string :=
  match s with
  | String c r => if is_space c then skip_space r else s
  | EmptyString => s
  end.

(** The digits after a first one, [acc] being the value read so far. *)
Fixpoint more_digits (acc : Z) (s : string) : option Z :=
  match s with
  | EmptyString => Some acc
  | String c r =>
      match digit_of c with
      | Some d => more_digits (10 * acc + d) r
      | None =>
          if Ascii.eqb c "_" then
            match r with
            | String c' r' =>
                match digit_of c' with
                | Some d => more_digits (10 * acc + d) r'
                | None => None
                end
            | EmptyString => None
            end
          else if all_space s then Some acc else None
      end
  end.

Definition digits (s : string) : option Z :=
  match s with
  | String c r =>
      match digit_of c with
      | Some d => more_digits d r
      | None => None
      end
  | EmptyString => None
  end.

Definition int (s : string) : result Z :=
  of_option ValueError
    match skip_space s with
    | String "-" r => option_map Z.opp (digits r)
    | String "+" r => digits r
    | r => digits r
    end.

(** [sorted(l, reverse=True)] on integers, by insertion. *)
Fixpoint insert_desc (x : Z) (l : list Z) : list Z :=
  match l with
  | [] => [x]
  | y :: r => if y <? x then x :: l else y :: insert_desc x r
  end.

Definition sorted_desc (l : list Z) : list Z := foldr insert_desc [] l.

End Py.

(** ** Loops *)

Section While.
Context {St : Type} (cond : St -> bool) (body : St -> result St).

Fixpoint while (fuel : nat) (s : St) : result St :=
  if cond s then
    match fuel with
    | O => Error OutOfFuel
    | S fuel' => s' <- body s ;; while fuel' s'
    end
  else OK s.
End While.

(** ** Floats *)

(** [math.pi] *)
Definition PI : float := 0x1.921fb54442d18p+1%float.

(** [2*PI] *)
Definition two_PI : float := (2 * PI)%float.

(** [round(x, 2)]. CPython rounds the exact value of [x] to two decimals,
    ties to even, and returns the double nearest to that decimal; a value
    that is not finite is returned as it is. With [k] the rounded integer
    number of hundredths, [k / 100] in binary64 is that double as long as
    [k] is below [2^53]; from there on, doubles are more than a hundredth
    apart and the double nearest to the decimal is [x] itself. *)
Definition hundredths (m : positive) (e : Z) : Z :=
  let num := 100 * Z.pos m in
  if 0 <=? e then num * 2 ^ e
  else
    let den := 2 ^ (- e) in
    let q := num / den in
    let r := num mod den in
    if 2 * r <? den then q
    else if den <? 2 * r then q + 1
    else if Z.even q then q else q + 1.

Definition round2 (x : float) : float :=
  match Prim2SF x with
  | S754_finite s m e =>
      let k := hundredths m e in
      if 2 ^ 53 <=? k then x
      else
        let r := (of_uint63 (Uint63.of_Z k) / 100)%float in
        if s then (- r)%float else r
  | _ => x
  end.

(** [round(Sum,2)==round(2*PI,2)] *)
Definition is_full_turn (Sum : float) : bool :=
  (round2 Sum =? round2 two_PI)%float.

(** ** Circuits *)

Record Gate : Type := mkGate { name : string; params : list float }.

(** An entry of [circuit.data]: [item[0]] is the gate, [item[1]] the qubits,
    given by their [index]. *)
Record Instr : Type := mkInstr { gate : Gate; qargs : list nat }.

Record Circuit : Type :=
  mkCircuit { num_qubits : nat; num_clbits : nat; data : list Instr }.

Definition set_data (c : Circuit) (d : list Instr) : Circuit :=
  mkCircuit (num_qubits c) (num_clbits c) d.

(** ** [removeZeroRotations] *)

(** [angle==[0.0] or angle==[2*PI]] on a parameter list *)
Definition is_zero_rotation (angle : list float) : bool :=
  match angle with
  | [x] => (x =? 0)%float || (x =? two_PI)%float
  | _ => false
  end.

Record rzr_state : Type := mkRzr { rzr_data : list Instr; rzr_i : Z; rzr_n : Z }.

Definition rzr_cond (s : rzr_state) : bool := rzr_i s <? rzr_n s.

Definition rzr_body (s : rzr_state) : result rzr_state :=
  let '(mkRzr d i n) := s in
  item <- Py.get d i ;;
  let angle := params (gate item) in
  if is_zero_rotation angle then
    d' <- Py.pop d i ;;
    OK (mkRzr d' (i - 1 + 1) (n - 1))
  else OK (mkRzr d (i + 1) n).

Definition removeZeroRotations (circuit : Circuit) : result Circuit :=
  let n := length (data circuit) in
  s <- while rzr_cond rzr_body n (mkRzr (data circuit) 0 (Z.of_nat n)) ;;
  OK (set_data circuit (rzr_data s)).

(** ** [removeDoubleCZ] *)

(** The stacks of the wires: [wires[q]] holds the tags of the gates seen on
    qubit [q], a tag being the gate's name followed by its index. *)
Abbreviation Wires := (list (list string)).

Record cz_state : Type :=
  mkCz { cz_data : list Instr; cz_wires : Wires; cz_i : Z; cz_n : Z }.

Definition cz_cond (s : cz_state) : bool := cz_i s <? cz_n s.

(** [wires[q][-1]] *)
Definition top (wires : Wires) (q : nat) : result string :=
  w <- Py.get_nat wires q ;; Py.get w (-1).

(** [wires[q][-1][:2]=="cz"] *)
Definition top_is_cz (wires : Wires) (q : nat) : result bool :=
  t <- top wires q ;; OK (String.eqb (Py.prefix2 t) "cz").

(** [wires[q].append(tag)] *)
Definition push (wires : Wires) (q : nat) (tag : string) : result Wires :=
  w <- Py.get_nat wires q ;; OK (<[q := w ++ [tag]]> wires).

(** [wires[q].pop()] *)
Definition drop_top (wires : Wires) (q : nat) : result Wires :=
  w <- Py.get_nat wires q ;; w' <- Py.pop_last w ;; OK (<[q := w']> wires).

Definition cz_body (s : cz_state) : result cz_state :=
  let '(mkCz d wires i n) := s in
  item <- Py.get d i ;;
  if String.eqb (name (gate item)) "cz" then
    qubit1 <- Py.get (qargs item) 0 ;;
    qubit2 <- Py.get (qargs item) 1 ;;
    c1 <- top_is_cz wires qubit1 ;;
    c2 <- (if c1 then top_is_cz wires qubit2 else OK false) ;;
    if c1 && c2 then
      d1 <- Py.pop d i ;;
      t <- top wires qubit1 ;;
      k <- Py.int (Py.suffix2 t) ;;
      d2 <- Py.pop d1 k ;;
      wires1 <- drop_top wires qubit1 ;;
      wires2 <- drop_top wires1 qubit2 ;;
      OK (mkCz d2 wires2 (i - 2 + 1) (n - 2))
    else
      wires1 <- push wires qubit1 (String.append "cz" (Py.str i)) ;;
      wires2 <- push wires1 qubit2 (String.append "cz" (Py.str i)) ;;
      OK (mkCz d wires2 (i + 1) n)
  else
    qubit <- Py.get (qargs item) 0 ;;
    wires1 <- push wires qubit (String.append (name (gate item)) (Py.str i)) ;;
    OK (mkCz d wires1 (i + 1) n).

Definition removeDoubleCZ (circuit : Circuit) : result (Circuit * Wires) :=
  let wires := replicate (num_qubits circuit) [EmptyString] in
  let n := length (data circuit) in
  s <- while cz_cond cz_body n (mkCz (data circuit) wires 0 (Z.of_nat n)) ;;
  OK (set_data circuit (cz_data s), cz_wires s).

(** ** [combineRotations] *)

(** The state of the scan of one wire [w = wires[j]]. *)
Record cr_state : Type :=
  mkCr { cr_data : list Instr; cr_pops : list Z; cr_wire : list string;
         cr_i : Z; cr_n : Z }.

Definition cr_cond (s : cr_state) : bool := cr_i s <? cr_n s - 1.

(** [circuit.data[k][0].params[0] = x] *)
Definition set_angle (d : list Instr) (k : Z) (x : float) : result (list Instr) :=
  item <- Py.get d k ;;
  p <- Py.set (params (gate item)) 0 x ;;
  Py.set d k (mkInstr (mkGate (name (gate item)) p) (qargs item)).

(** [circuit.data[k][0].params[0]] *)
Definition get_angle (d : list Instr) (k : Z) : result float :=
  item <- Py.get d k ;; Py.get (params (gate item)) 0.

Definition cr_body (s : cr_state) : result cr_state :=
  let '(mkCr d pops w i n) := s in
  a <- Py.get w i ;;
  b <- Py.get w (i + 1) ;;
  if String.eqb (Py.prefix2 a) (Py.prefix2 b) then
    index1 <- Py.int (Py.suffix2 a) ;;
    index2 <- Py.int (Py.suffix2 b) ;;
    angle1 <- get_angle d index1 ;;
    angle2 <- get_angle d index2 ;;
    let Sum := (angle1 + angle2)%float in
    d' <- set_angle d index2 Sum ;;
    let pops1 := pops ++ [index1] in
    w1 <- Py.del w i ;;
    let n1 := n - 1 in
    let i1 := i - 1 in
    if is_full_turn Sum then
      let pops2 := pops1 ++ [index2] in
      w2 <- Py.del w1 (i1 + 1) ;;
      OK (mkCr d' pops2 w2 (i1 - 2 + 1) (n1 - 1))
    else OK (mkCr d' pops1 w1 (i1 + 1) n1)
  else OK (mkCr d pops w (i + 1) n).

(** The [for j in range(len(wires))] loop: the wires are scanned in order,
    each from its own stack. *)
Fixpoint combine_wires (wires : Wires) (d : list Instr) (pops : list Z)
  : result (list Instr * list Z) :=
  match wires with
  | [] => OK (d, pops)
  | w :: rest =>
      s <- while cr_cond cr_body (3 * length w)
             (mkCr d pops w 0 (Z.of_nat (length w))) ;;
      combine_wires rest (cr_data s) (cr_pops s)
  end.

(** [[circuit.data.pop(i) for i in indicesToPop]] *)
Fixpoint pop_all (d : list Instr) (ks : list Z) : result (list Instr) :=
  match ks with
  | [] => OK d
  | k :: r => d' <- Py.pop d k ;; pop_all d' r
  end.

Definition combineRotations (circuit : Circuit) (wires : Wires) : result Circuit :=
  r <- combine_wires wires (data circuit) [] ;;
  let indicesToPop := Py.sorted_desc (snd r) in
  d <- pop_all (fst r) indicesToPop ;;
  OK (set_data circuit d).

(** ** [simplify] *)

Definition simplify (circuit : Circuit) : result Circuit :=
  circuit1 <- removeZeroRotations circuit ;;
  r <- removeDoubleCZ circuit1 ;;
  combineRotations (fst r) (snd r).

(** ** [compiler] *)

Section Compiler.

(** The two decomposers are qiskit's: each returns a circuit whose entries
    carry the local qubit slots (0 or 1) they act on, or fails. *)
Variable oneQubitDecomppser : Gate -> result Circuit.
Variable twoQubitDecomppser : Gate -> result Circuit.

(** [decomposedCircuit.append(gate, qubits)]; the qubits come from the
    input circuit, which has the same width. *)
Definition append (c : Circuit) (g : Gate) (qubits : list nat) : Circuit :=
  set_data c (data c ++ [mkInstr g qubits]).

(** The inner loop of the two-qubit branch. *)
Fixpoint splice (positions : list nat) (items : list Instr) (dc : Circuit)
  : result Circuit :=
  match items with
  | [] => OK dc
  | item :: rest =>
      let g := gate item in
      if (length (qargs item) =? 2)%nat then
        splice positions rest (append dc g positions)
      else
        slot <- Py.get (qargs item) 0 ;;
        pos <- Py.get positions (Z.of_nat slot) ;;
        splice positions rest (append dc g [pos])
  end.

(** The body of the loop over [circuit.data]. *)
Definition lower (dc : Circuit) (item : Instr) : result Circuit :=
  let g := gate item in
  let numOfQubits := length (qargs item) in
  let positions := qargs item in
  if (numOfQubits =? 1)%nat then
    decomposition <- oneQubitDecomppser g ;;
    let gates := map gate (data decomposition) in
    OK (foldl (fun c g' => append c g' positions) dc gates)
  else if (numOfQubits =? 2)%nat then
    decomposition <- twoQubitDecomppser g ;;
    splice positions (data decomposition) dc
  else OK dc.

Fixpoint lower_all (items : list Instr) (dc : Circuit) : result Circuit :=
  match items with
  | [] => OK dc
  | item :: rest => dc' <- lower dc item ;; lower_all rest dc'
  end.

Definition compiler (circuit : Circuit) : result Circuit :=
  let decomposedCircuit :=
    mkCircuit (num_qubits circuit)
      (if (0 <? num_clbits circuit)%nat then num_clbits circuit else 0%nat) []
  in
  lower_all (data circuit) decomposedCircuit.

End Compiler.

(** ** Instructions of the three-gate basis *)

Definition rx (t : float) (q : nat) : Instr := mkInstr (mkGate "rx" [t]) [q].
Definition rz (t : float) (q : nat) : Instr := mkInstr (mkGate "rz" [t]) [q].
Definition cz (a b : nat) : Instr := mkInstr (mkGate "cz" []) [a; b].

(** A gate with one angle on one qubit. *)
Definition rot (nm : string) (t : float) (q : nat) : Instr :=
  mkInstr (mkGate nm [t]) [q].

(** ** Notions used in the statements *)

(** A result that is not a loop running out of fuel: a value or a Python
    exception. *)
Definition settled {A : Type} (r : result A) : Prop :=
  match r with
  | Error OutOfFuel => False
  | _ => True
  end.

(** The instructions [removeZeroRotations] is to keep. *)
Definition kept (item : Instr) : bool :=
  negb (is_zero_rotation (params (gate item))).

(** The measure that bounds the scan of one wire in [combineRotations]. *)
Definition cr_measure (s : cr_state) : nat :=
  (Z.to_nat (cr_n s - 1 - cr_i s) + 2 * length (cr_wire s))%nat.

(** The gates [compiler] lowers: those on one qubit or on two. *)
Definition lowered (item : Instr) : bool :=
  (length (qargs item) =? 1)%nat || (length (qargs item) =? 2)%nat.

(** A decomposer that always fails, and a gate on three qubits. *)
Definition no_decomposer (g : Gate) : result Circuit := Error DecomposerFailure.

Definition ccx (a b c : nat) : Instr := mkInstr (mkGate "ccx" []) [a; b; c].

(** ** Notions used in the further properties *)

(** An instruction that [compiler] may emit for the circuit [c]: it acts on
    one qubit or on two, all of them qubits of one gate of [c]. *)
Definition from_gate_of (c : Circuit) (it : Instr) : Prop :=
  (length (qargs it) = 1%nat \/ length (qargs it) = 2%nat) /\
  exists src, In src (data c) /\ forall q, In q (qargs it) -> In q (qargs src).

(** [pre] put in front of the instructions of [dc]. *)
Definition prepend (pre : list Instr) (dc : Circuit) : Circuit :=
  set_data dc (pre ++ data dc).

Definition map_result {A B : Type} (f : A -> B) (r : result A) : result B :=
  match r with
  | OK a => OK (f a)
  | Error e => Error e
  end.

(** Stand-ins for the two decomposers, to run [compiler] on examples: a
    fixed rz-rx-rz sequence on the one local qubit, and a fixed sequence
    with one cz on the two local qubits. *)
Definition euler_stub (g : Gate) : result Circuit :=
  OK (mkCircuit 1 0 [rz 1 0; rx 2 0; rz 3 0]).

Definition kak_stub (g : Gate) : result Circuit :=
  OK (mkCircuit 2 0 [rz 1 0; rx 1 1; cz 0 1; rx 2 1]).

(** A wire on which no two neighbouring tags agree in their first two
    characters. *)
Fixpoint quiet (w : list string) : bool :=
  match w with
  | a :: r =>
      match r with
      | b :: _ => negb (String.eqb (Py.prefix2 a) (Py.prefix2 b)) && quiet r
      | [] => true
      end
  | [] => true
  end.

(** The entries of [d] whose index, counted from [i], is not in [ks]. *)
Fixpoint unmarked (i : Z) (ks : list Z) (d : list Instr) : list Instr :=
  match d with
  | [] => []
  | x :: r =>
      if existsb (Z.eqb i) ks then unmarked (i + 1) ks r
      else x :: unmarked (i + 1) ks r
  end.

(** A list of indices in strictly decreasing order. *)
Fixpoint descending (l : list Z) : Prop :=
  match l with
  | [] => True
  | k :: r => Forall (fun x => x < k) r /\ descending r
  end.

(** An instruction whose first two qubits, when it has two, differ. *)
Definition distinct_qubits (item : Instr) : Prop :=
  match qargs item with
  | a :: b :: _ => a <> b
  | _ => True
  end.

(** A stack that still has its sentinel at the bottom. *)
Definition has_sentinel (w : list string) : Prop := head w = Some EmptyString.

(** What every step of [removeDoubleCZ] keeps, on a circuit of [nq] qubits. *)
Definition cz_kept (nq : nat) (s : cz_state) : Prop :=
  length (cz_wires s) = nq /\
  Forall has_sentinel (cz_wires s) /\
  Forall distinct_qubits (cz_data s).

(** The gate acts on qubit [q] first. *)
Definition first_qubit_is (q : nat) (item : Instr) : bool :=
  match qargs item with
  | q' :: _ => Nat.eqb q' q
  | [] => false
  end.

(** The tags of the instructions of [d] whose first qubit is [q], in order,
    the instructions being numbered from [i]. *)
Fixpoint tags_from (i : Z) (q : nat) (d : list Instr) : list string :=
  match d with
  | [] => []
  | item :: r =>
      (if first_qubit_is q item
       then [String.append (name (gate item)) (Py.str i)] else [])
      ++ tags_from (i + 1) q r
  end.

(** The wire history of a sequence [d] on [nq] qubits in which nothing
    cancels: on each wire the sentinel, then the tags of its gates. *)
Definition history (nq : nat) (d : list Instr) : Wires :=
  map (fun q => EmptyString :: tags_from 0 q d) (seq 0 nq).

(** A gate that is no cz and whose first qubit is a qubit of the circuit. *)
Definition plain (nq : nat) (item : Instr) : bool :=
  negb (String.eqb (name (gate item)) "cz") &&
  match qargs item with
  | q :: _ => (q <? nq)%nat
  | [] => false
  end.

(** The state of the scan of [removeDoubleCZ] after the instructions [pre],
    none of which cancelled, with [tail] still to come. *)
Definition cz_at (nq : nat) (pre tail : list Instr) : cz_state :=
  mkCz (pre ++ tail) (history nq pre) (Z.of_nat (length pre))
    (Z.of_nat (length (pre ++ tail))).

(** The wires after one cz on [a] and [b] at index 0 of a circuit of [nq]
    qubits. *)
Definition after_one_cz (nq a b : nat) : Wires :=
  <[b := [EmptyString; "cz0"]%string]>
    (<[a := [EmptyString; "cz0"]%string]> (replicate nq [EmptyString])).

(** Where the scan of a run of [m] equal cz ends. *)
Definition chain_end (nq a b m : nat) : cz_state :=
  if Nat.odd m then mkCz [cz a b] (after_one_cz nq a b) 1 1
  else mkCz [] (replicate nq [EmptyString]) 0 0.

(** The earlier draft of the file ([Task3 qosf.py]): its
    [removeZeroRotations] tests the parameters against [[0.0]] only. *)
Module Draft.

(** [circuit.data[i][0].params==[0.0]] *)
Definition is_zero (angle : list float) : bool :=
  match angle with
  | [x] => (x =? 0)%float
  | _ => false
  end.

Definition rzr_body (s : rzr_state) : result rzr_state :=
  let '(mkRzr d i n) := s in
  item <- Py.get d i ;;
  if is_zero (params (gate item)) then
    d' <- Py.pop d i ;;
    OK (mkRzr d' (i - 1 + 1) (n - 1))
  else OK (mkRzr d (i + 1) n).

Definition removeZeroRotations (circuit : Circuit) : result Circuit :=
  let n := length (data circuit) in
  s <- while rzr_cond rzr_body n (mkRzr (data circuit) 0 (Z.of_nat n)) ;;
  OK (set_data circuit (rzr_data s)).

(** The instructions the draft keeps. *)
Definition kept (item : Instr) : bool := negb (is_zero (params (gate item))).

End Draft.

(** An rx or an rz whose first qubit is a qubit of the circuit. *)
Definition basis_rotation (nq : nat) (item : Instr) : bool :=
  (String.eqb (name (gate item)) "rx" || String.eqb (name (gate item)) "rz") &&
  match qargs item with
  | q :: _ => (q <? nq)%nat
  | [] => false
  end.

(** A tag that [removeDoubleCZ] does not take for the tag of a cz. *)
Definition not_cz_tag (t : string) : Prop :=
  String.eqb (Py.prefix2 t) "cz" = false.

(** ** The Python primitives on examples *)

Example int_of_tag : Py.int (Py.suffix2 "cz12") = OK 12.
Proof. reflexivity. Qed.

Example int_of_empty : Py.int EmptyString = Error ValueError.
Proof. reflexivity. Qed.

Example str_of_index : Py.str 10 = "10"%string.
Proof. reflexivity. Qed.

Example get_negative : Py.get [1; 2; 3] (-1) = OK 3.
Proof. reflexivity. Qed.

Example get_out_of_range : Py.get [1; 2; 3] 3 = Error IndexError.
Proof. reflexivity. Qed.

Example sorted_desc_example : Py.sorted_desc [0; 2; 1; 2] = [2; 2; 1; 0].
Proof. reflexivity. Qed.

Example round2_two_PI : round2 two_PI = (628 / 100)%float.
Proof. vm_compute. reflexivity. Qed.

(** 2.675 lies below the decimal 2.675, 0.125 is a tie. *)
Example round2_below_half : round2 0x1.5666666666666p+1 = (267 / 100)%float.
Proof. vm_compute. reflexivity. Qed.

Example round2_tie_to_even : round2 0x1p-3 = (12 / 100)%float.
Proof. vm_compute. reflexivity. Qed.

(** ** Reasoning about results *)

Lemma settled_OK {A : Type} (a : A) : settled (OK a).
Proof. exact I. Qed.

Lemma settled_bind {A B : Type} (m : result A) (k : A -> result B) :
  settled m -> (forall a, m = OK a -> settled (k a)) -> settled (bind m k).
Proof. destruct m as [a|e]; cbn; auto. Qed.

Lemma settled_of_option {A : Type} (e : exn) (o : option A) :
  e <> OutOfFuel -> settled (of_option e o).
Proof. destruct o; cbn; [auto|]. destruct e; auto; congruence. Qed.

Lemma settled_index {A : Type} (l : list A) (k : Z) : settled (Py.index l k).
Proof. unfold Py.index. repeat case_match; exact I. Qed.

Lemma settled_get {A : Type} (l : list A) (k : Z) : settled (Py.get l k).
Proof.
  apply settled_bind; [apply settled_index|].
  intros; now apply settled_of_option.
Qed.

Lemma settled_del {A : Type} (l : list A) (k : Z) : settled (Py.del l k).
Proof. apply settled_bind; [apply settled_index|]. intros; exact I. Qed.

Lemma settled_set {A : Type} (l : list A) (k : Z) (x : A) : settled (Py.set l k x).
Proof. apply settled_bind; [apply settled_index|]. intros; exact I. Qed.

Lemma settled_get_nat {A : Type} (l : list A) (q : nat) : settled (Py.get_nat l q).
Proof. now apply settled_of_option. Qed.

Lemma settled_int (s : string) : settled (Py.int s).
Proof. now apply settled_of_option. Qed.

Create HintDb settled.
#[export] Hint Resolve settled_OK settled_get settled_del settled_set
  settled_get_nat settled_int : settled.

(** Python indexing: a successful [del] shortens the list by one, a
    successful assignment keeps its length. *)
Lemma index_lt {A : Type} (l : list A) (k : Z) (j : nat) :
  Py.index l k = OK j -> (j < length l)%nat.
Proof.
  unfold Py.index. intros H.
  repeat case_match; inversion H; subst; lia.
Qed.

Lemma length_del {A : Type} (l l' : list A) (k : Z) :
  Py.del l k = OK l' -> S (length l') = length l.
Proof.
  unfold Py.del. destruct (Py.index l k) as [j|] eqn:E; cbn; [|discriminate].
  intros [= <-]. apply index_lt in E.
  rewrite length_delete; [lia|]. now apply lookup_lt_is_Some_2.
Qed.

Lemma length_set {A : Type} (l l' : list A) (k : Z) (x : A) :
  Py.set l k x = OK l' -> length l' = length l.
Proof.
  unfold Py.set. destruct (Py.index l k) as [j|]; cbn; [|discriminate].
  intros [= <-]. apply length_insert.
Qed.

(** ** Loops: invariants and fuel *)

Section WhileFacts.
Context {St : Type} (cond : St -> bool) (body : St -> result St).

Lemma while_unfold (fuel : nat) (s : St) :
  cond s = true ->
  while cond body (S fuel) s = (s' <- body s ;; while cond body fuel s').
Proof. intros H. cbn. now rewrite H. Qed.

Lemma while_exit (fuel : nat) (s : St) :
  cond s = false -> while cond body fuel s = OK s.
Proof. intros H. destruct fuel; cbn; now rewrite H. Qed.

Lemma while_inv (P : St -> Prop) :
  (forall s s', cond s = true -> P s -> body s = OK s' -> P s') ->
  forall fuel s s', P s -> while cond body fuel s = OK s' -> P s'.
Proof.
  intros Hstep. induction fuel as [|fuel IH]; intros s s' Hs; cbn;
    destruct (cond s) eqn:Hc; try discriminate; try (intros [= <-]; exact Hs).
  destruct (body s) as [s1|] eqn:Hb; cbn; [|discriminate].
  apply IH. eauto.
Qed.

Lemma while_settled (mu : St -> nat) :
  (forall s, settled (body s)) ->
  (forall s, cond s = true -> (0 < mu s)%nat) ->
  (forall s s', cond s = true -> body s = OK s' -> (mu s' < mu s)%nat) ->
  forall fuel s, (mu s <= fuel)%nat -> settled (while cond body fuel s).
Proof.
  intros Hb Hpos Hmu. induction fuel as [|fuel IH]; intros s Hle; cbn;
    destruct (cond s) eqn:Hc; try exact I.
  - specialize (Hpos _ Hc). lia.
  - apply settled_bind; [apply Hb|].
    intros s1 E. apply IH. specialize (Hmu _ _ Hc E). lia.
Qed.
End WhileFacts.

(** ** [removeZeroRotations] is a filter *)

Lemma index_app_length {A : Type} (pre rest : list A) (x : A) :
  Py.index (pre ++ x :: rest) (Z.of_nat (length pre)) = OK (length pre).
Proof.
  unfold Py.index. rewrite length_app. cbn [length].
  rewrite (proj2 (Z.leb_le _ _)) by lia.
  rewrite (proj2 (Z.ltb_lt _ _)) by lia.
  cbn. now rewrite Nat2Z.id.
Qed.

Lemma get_app_length {A : Type} (pre rest : list A) (x : A) :
  Py.get (pre ++ x :: rest) (Z.of_nat (length pre)) = OK x.
Proof.
  unfold Py.get. rewrite index_app_length. cbn.
  now rewrite list_lookup_middle.
Qed.

Lemma pop_app_length {A : Type} (pre rest : list A) (x : A) :
  Py.pop (pre ++ x :: rest) (Z.of_nat (length pre)) = OK (pre ++ rest).
Proof.
  unfold Py.pop, Py.del. rewrite index_app_length. cbn.
  now rewrite delete_middle.
Qed.

Lemma rzr_scan (rest pre : list Instr) (fuel : nat) :
  (length rest <= fuel)%nat ->
  while rzr_cond rzr_body fuel
    (mkRzr (pre ++ rest) (Z.of_nat (length pre)) (Z.of_nat (length (pre ++ rest))))
  = OK (mkRzr (pre ++ List.filter kept rest)
          (Z.of_nat (length (pre ++ List.filter kept rest)))
          (Z.of_nat (length (pre ++ List.filter kept rest)))).
Proof.
  revert pre fuel. induction rest as [|x rest IH]; intros pre fuel Hfuel.
  - cbn [List.filter]. rewrite !app_nil_r. apply while_exit.
    unfold rzr_cond; cbn. apply Z.ltb_ge. lia.
  - destruct fuel as [|fuel]; [cbn in Hfuel; lia|].
    rewrite while_unfold
      by (unfold rzr_cond; cbn; apply Z.ltb_lt; rewrite length_app; cbn; lia).
    cbn [rzr_body]. rewrite get_app_length. cbn [bind List.filter].
    destruct (is_zero_rotation (params (gate x))) eqn:E;
      [assert (Hk : kept x = false) by (unfold kept; now rewrite E)
      |assert (Hk : kept x = true) by (unfold kept; now rewrite E)];
      rewrite Hk.
    + rewrite pop_app_length. cbn [bind].
      replace (Z.of_nat (length pre) - 1 + 1) with (Z.of_nat (length pre)) by lia.
      replace (Z.of_nat (length (pre ++ x :: rest)) - 1)
        with (Z.of_nat (length (pre ++ rest)))
        by (rewrite !length_app; cbn; lia).
      apply IH. cbn in Hfuel. lia.
    + replace (pre ++ x :: rest) with ((pre ++ [x]) ++ rest)
        by now rewrite <- app_assoc.
      replace (Z.of_nat (length pre) + 1) with (Z.of_nat (length (pre ++ [x])))
        by (rewrite length_app; cbn; lia).
      cbn [bind]. rewrite (IH (pre ++ [x]) fuel) by (cbn in Hfuel; lia).
      now rewrite <- !app_assoc.
Qed.

Lemma removeZeroRotations_filter (c : Circuit) :
  removeZeroRotations c = OK (set_data c (List.filter kept (data c))).
Proof.
  unfold removeZeroRotations.
  pose proof (rzr_scan (data c) [] (length (data c)) (le_n _)) as H.
  cbn [app length] in H. change (Z.of_nat 0) with 0 in H.
  cbn zeta. now rewrite H.
Qed.

(** ** Every pass terminates and never lengthens the sequence *)

Ltac settle :=
  repeat first
    [ exact I
    | progress auto with settled
    | apply settled_bind; [|intros ? ?]
    | match goal with
      | |- settled (if ?b then _ else _) => destruct b
      | |- settled (match ?s with _ => _ end) => destruct s
      end ].

Ltac inv_bind H :=
  repeat match type of H with
    | bind ?m _ = OK _ =>
        let E := fresh "E" in
        destruct m eqn:E; cbn [bind] in H; [|discriminate H]
    | (if ?b then _ else _) = OK _ =>
        let E := fresh "E" in destruct b eqn:E
    end.

Lemma settled_top (wires : Wires) (q : nat) : settled (top wires q).
Proof. unfold top. settle. Qed.

Lemma settled_top_is_cz (wires : Wires) (q : nat) : settled (top_is_cz wires q).
Proof. unfold top_is_cz, top. settle. Qed.

Lemma settled_push (wires : Wires) (q : nat) (t : string) : settled (push wires q t).
Proof. unfold push. settle. Qed.

Lemma settled_drop_top (wires : Wires) (q : nat) : settled (drop_top wires q).
Proof. unfold drop_top, Py.pop_last. settle. Qed.

#[export] Hint Resolve settled_top settled_top_is_cz settled_push
  settled_drop_top : settled.

Lemma settled_cz_body (s : cz_state) : settled (cz_body s).
Proof. destruct s. unfold cz_body, Py.pop. settle. Qed.

Lemma cz_body_step (s s' : cz_state) :
  cz_body s = OK s' ->
  (length (cz_data s') <= length (cz_data s))%nat /\
  cz_n s' - cz_i s' = cz_n s - cz_i s - 1.
Proof.
  destruct s as [d wires i n]. unfold cz_body, Py.pop. intros H.
  inv_bind H; injection H as <-; cbn;
    repeat match goal with
      | E : Py.del _ _ = OK _ |- _ => apply length_del in E
      end;
    split; lia.
Qed.

Lemma removeDoubleCZ_settled (c : Circuit) : settled (removeDoubleCZ c).
Proof.
  unfold removeDoubleCZ. apply settled_bind; [|intros; exact I].
  apply (while_settled _ _ (fun s => Z.to_nat (cz_n s - cz_i s))).
  - apply settled_cz_body.
  - intros s Hc. unfold cz_cond in Hc. apply Z.ltb_lt in Hc. lia.
  - intros s s' Hc Hb. unfold cz_cond in Hc. apply Z.ltb_lt in Hc.
    apply cz_body_step in Hb. lia.
  - cbn. lia.
Qed.

Lemma removeDoubleCZ_length (c c' : Circuit) (wires : Wires) :
  removeDoubleCZ c = OK (c', wires) ->
  (length (data c') <= length (data c))%nat.
Proof.
  unfold removeDoubleCZ. intros H. inv_bind H. injection H as <- <-. cbn.
  revert E. apply (while_inv _ _ (fun s => (length (cz_data s) <= length (data c))%nat)).
  - intros s s' _ Hs Hb. apply cz_body_step in Hb. lia.
  - cbn. lia.
Qed.

Lemma settled_get_angle (d : list Instr) (k : Z) : settled (get_angle d k).
Proof. unfold get_angle. settle. Qed.

Lemma settled_set_angle (d : list Instr) (k : Z) (x : float) :
  settled (set_angle d k x).
Proof. unfold set_angle. settle. Qed.

#[export] Hint Resolve settled_get_angle settled_set_angle : settled.

Lemma length_set_angle (d d' : list Instr) (k : Z) (x : float) :
  set_angle d k x = OK d' -> length d' = length d.
Proof.
  unfold set_angle. intros H. inv_bind H. now apply length_set in H.
Qed.

Lemma settled_cr_body (s : cr_state) : settled (cr_body s).
Proof. destruct s. unfold cr_body. settle. Qed.

Lemma cr_body_step (s s' : cr_state) :
  cr_body s = OK s' ->
  length (cr_data s') = length (cr_data s) /\
  ((cr_i s' = cr_i s + 1 /\ cr_n s' = cr_n s /\
    length (cr_wire s') = length (cr_wire s)) \/
   (cr_i s' = cr_i s /\ cr_n s' = cr_n s - 1 /\
    S (length (cr_wire s')) = length (cr_wire s)) \/
   (cr_i s' = cr_i s - 2 /\ cr_n s' = cr_n s - 2 /\
    S (S (length (cr_wire s'))) = length (cr_wire s))).
Proof.
  destruct s as [d pops w i n]. unfold cr_body. intros H.
  inv_bind H; injection H as <-; cbn;
    repeat match goal with
      | E : Py.del _ _ = OK _ |- _ => apply length_del in E
      | E : set_angle _ _ _ = OK _ |- _ => apply length_set_angle in E
      end;
    (split; [lia|]).
  - right; right. lia.
  - right; left. lia.
  - left. lia.
Qed.

Lemma settled_cr_while (d : list Instr) (pops : list Z) (w : list string) :
  settled (while cr_cond cr_body (3 * length w)
             (mkCr d pops w 0 (Z.of_nat (length w)))).
Proof.
  apply (while_settled _ _ cr_measure).
  - apply settled_cr_body.
  - intros s Hc. unfold cr_cond in Hc. apply Z.ltb_lt in Hc.
    unfold cr_measure. lia.
  - intros s s' Hc Hb. unfold cr_cond in Hc. apply Z.ltb_lt in Hc.
    apply cr_body_step in Hb. unfold cr_measure. lia.
  - unfold cr_measure. cbn [cr_n cr_i cr_wire]. lia.
Qed.

Lemma length_cr_while (fuel : nat) (s s' : cr_state) :
  while cr_cond cr_body fuel s = OK s' ->
  length (cr_data s') = length (cr_data s).
Proof.
  apply (while_inv _ _ (fun t => length (cr_data t) = length (cr_data s)));
    [|reflexivity].
  intros t t' _ Ht Hb. apply cr_body_step in Hb. lia.
Qed.

Lemma combine_wires_settled (wires : Wires) (d : list Instr) (pops : list Z) :
  settled (combine_wires wires d pops).
Proof.
  revert d pops. induction wires as [|w rest IH]; intros d pops; cbn; [exact I|].
  apply settled_bind; [apply settled_cr_while|]. intros; apply IH.
Qed.

Lemma combine_wires_length (wires : Wires) (d d' : list Instr) (pops pops' : list Z) :
  combine_wires wires d pops = OK (d', pops') -> length d' = length d.
Proof.
  revert d pops. induction wires as [|w rest IH]; intros d pops; cbn.
  - now intros [= <- _].
  - intros H. inv_bind H. apply IH in H. apply length_cr_while in E. cbn in E. lia.
Qed.

Lemma pop_all_settled (ks : list Z) (d : list Instr) : settled (pop_all d ks).
Proof.
  revert d. induction ks as [|k r IH]; intros d; cbn; [exact I|].
  unfold Py.pop. apply settled_bind; [apply settled_del|]. intros; apply IH.
Qed.

Lemma pop_all_length (ks : list Z) (d d' : list Instr) :
  pop_all d ks = OK d' -> (length d' <= length d)%nat.
Proof.
  revert d. induction ks as [|k r IH]; intros d; cbn.
  - intros [= <-]. lia.
  - unfold Py.pop. intros H. inv_bind H. apply IH in H. apply length_del in E. lia.
Qed.

Lemma combineRotations_settled (c : Circuit) (wires : Wires) :
  settled (combineRotations c wires).
Proof.
  unfold combineRotations. apply settled_bind; [apply combine_wires_settled|].
  intros. apply settled_bind; [apply pop_all_settled|]. intros; exact I.
Qed.

Lemma combineRotations_length (c c' : Circuit) (wires : Wires) :
  combineRotations c wires = OK c' ->
  (length (data c') <= length (data c))%nat.
Proof.
  unfold combineRotations. intros H. inv_bind H. injection H as <-. cbn.
  destruct a as [d pops]. apply combine_wires_length in E.
  apply pop_all_length in E0. cbn in *. lia.
Qed.

Lemma length_filter_le {A : Type} (f : A -> bool) (l : list A) :
  (length (List.filter f l) <= length l)%nat.
Proof. induction l as [|x l IH]; cbn; [lia|]. destruct (f x); cbn; lia. Qed.

(** C9. For every input sequence the driver [simplify] stops, with a Python
    exception or with a circuit, and a circuit it returns is never longer
    than the input sequence. *)
Theorem simplify_length_nonincreasing (c : Circuit) :
  settled (simplify c) /\
  (forall c', simplify c = OK c' -> (length (data c') <= length (data c))%nat).
Proof.
  unfold simplify. rewrite removeZeroRotations_filter. cbn [bind]. split.
  - apply settled_bind; [apply removeDoubleCZ_settled|].
    intros; apply combineRotations_settled.
  - intros c' H. inv_bind H. destruct a as [c2 wires].
    apply removeDoubleCZ_length in E. apply combineRotations_length in H.
    cbn in *. pose proof (length_filter_le kept (data c)). lia.
Qed.

(** C5. [removeZeroRotations] always returns; what it returns is the input
    circuit with exactly the instructions whose parameter list is one angle
    equal to 0 or to the double [2*PI] taken out: the others stay, unchanged
    and in their order (the scan skips none), and the qubit and bit counts
    are untouched. *)
Theorem removeZeroRotations_removes_identities (c : Circuit) :
  exists c',
    removeZeroRotations c = OK c' /\
    data c' = List.filter kept (data c) /\
    num_qubits c' = num_qubits c /\
    num_clbits c' = num_clbits c.
Proof.
  exists (set_data c (List.filter kept (data c))).
  split; [apply removeZeroRotations_filter|]. now cbn.
Qed.

(** C10. Whether [removeZeroRotations] removes an instruction depends on
    its parameter list alone: an instruction is in the result exactly when
    it is in the input and its parameters are neither [[0.0]] nor [[2*PI]];
    so one whose parameters are a single angle equal to 0 or [2*PI] is gone
    whatever the name of its gate and its qubits, and one without parameters
    (a cz) always stays. *)
Theorem removeZeroRotations_decides_by_params (c : Circuit) :
  exists c',
    removeZeroRotations c = OK c' /\
    (forall item,
        In item (data c') <->
        In item (data c) /\ is_zero_rotation (params (gate item)) = false) /\
    (forall nm x qs,
        ((x =? 0)%float = true \/ (x =? two_PI)%float = true) ->
        ~ In (mkInstr (mkGate nm [x]) qs) (data c')) /\
    (forall item,
        In item (data c) -> params (gate item) = [] -> In item (data c')).
Proof.
  exists (set_data c (List.filter kept (data c))).
  split; [apply removeZeroRotations_filter|]. cbn [data set_data].
  assert (Hin : forall item,
             In item (List.filter kept (data c)) <->
             In item (data c) /\ is_zero_rotation (params (gate item)) = false).
  { intros item. rewrite filter_In. unfold kept.
    now rewrite negb_true_iff. }
  split; [exact Hin|]. split.
  - intros nm x qs Hx Hi. apply Hin in Hi as [_ Hi].
    cbn [is_zero_rotation params gate] in Hi.
    apply orb_false_iff in Hi as [H0 H2]. destruct Hx; congruence.
  - intros item Hi Hp. apply Hin. split; [exact Hi|]. now rewrite Hp.
Qed.

(** ** The steps of [removeDoubleCZ] *)

Lemma get_last {A : Type} (w : list A) (t : A) : Py.get (w ++ [t]) (-1) = OK t.
Proof.
  unfold Py.get, Py.index. rewrite length_app. cbn [length].
  rewrite (proj2 (Z.leb_gt _ _)) by lia. cbn [andb].
  rewrite (proj2 (Z.leb_le _ _)) by lia. cbn [andb Z.ltb Z.compare bind].
  replace (Z.to_nat (Z.of_nat (length w + 1) + -1)) with (length w) by lia.
  now rewrite list_lookup_middle.
Qed.

Lemma pop_last_app {A : Type} (w : list A) (t : A) : Py.pop_last (w ++ [t]) = OK w.
Proof.
  unfold Py.pop_last, Py.del, Py.index. rewrite length_app. cbn [length].
  rewrite (proj2 (Z.leb_gt _ _)) by lia. cbn [andb].
  rewrite (proj2 (Z.leb_le _ _)) by lia. cbn [andb Z.ltb Z.compare bind].
  replace (Z.to_nat (Z.of_nat (length w + 1) + -1)) with (length w) by lia.
  rewrite delete_middle. now rewrite app_nil_r.
Qed.

Lemma get_head {A : Type} (x : A) (l : list A) : Py.get (x :: l) 0 = OK x.
Proof.
  unfold Py.get, Py.index. cbn [length].
  rewrite (proj2 (Z.ltb_lt _ _)) by lia. reflexivity.
Qed.

Lemma get_second {A : Type} (x y : A) (l : list A) : Py.get (x :: y :: l) 1 = OK y.
Proof.
  unfold Py.get, Py.index. cbn [length].
  rewrite (proj2 (Z.ltb_lt _ _)) by lia. reflexivity.
Qed.

Lemma top_lookup (wires : Wires) (q : nat) (w : list string) (t : string) :
  wires !! q = Some (w ++ [t]) -> top wires q = OK t.
Proof. intros H. unfold top, Py.get_nat. rewrite H. apply get_last. Qed.

Lemma push_lookup (wires : Wires) (q : nat) (w : list string) (t : string) :
  wires !! q = Some w -> push wires q t = OK (<[q := w ++ [t]]> wires).
Proof. intros H. unfold push, Py.get_nat. now rewrite H. Qed.

Lemma drop_top_lookup (wires : Wires) (q : nat) (w : list string) (t : string) :
  wires !! q = Some (w ++ [t]) -> drop_top wires q = OK (<[q := w]> wires).
Proof.
  intros H. unfold drop_top, Py.get_nat. rewrite H. cbn [of_option bind].
  now rewrite pop_last_app.
Qed.

(** A gate that is not a cz is pushed on the wire of its first qubit. *)
Lemma cz_step_other (d : list Instr) (wires : Wires) (i n : Z)
    (item : Instr) (q : nat) (qs : list nat) (w : list string) :
  Py.get d i = OK item ->
  String.eqb (name (gate item)) "cz" = false ->
  qargs item = q :: qs ->
  wires !! q = Some w ->
  cz_body (mkCz d wires i n)
  = OK (mkCz d (<[q := w ++ [String.append (name (gate item)) (Py.str i)]]> wires)
          (i + 1) n).
Proof.
  intros Hd Hn Hq Hw. unfold cz_body. rewrite Hd. cbn [bind]. rewrite Hn, Hq.
  rewrite get_head. cbn [bind]. erewrite push_lookup by eassumption. reflexivity.
Qed.

(** A cz is pushed on both wires when the top of the first wire is no cz
    tag, or that of the second is none. *)
Lemma cz_step_push (d : list Instr) (wires : Wires) (i n : Z)
    (item : Instr) (a b : nat) (qs : list nat)
    (wa wb wb' : list string) (ta tb : string) :
  Py.get d i = OK item ->
  String.eqb (name (gate item)) "cz" = true ->
  qargs item = a :: b :: qs ->
  wires !! a = Some (wa ++ [ta]) ->
  (String.eqb (Py.prefix2 ta) "cz" = false \/
   (wires !! b = Some (wb ++ [tb]) /\ String.eqb (Py.prefix2 tb) "cz" = false)) ->
  (<[a := wa ++ [ta] ++ [String.append "cz" (Py.str i)]]> wires) !! b = Some wb' ->
  cz_body (mkCz d wires i n)
  = OK (mkCz d
          (<[b := wb' ++ [String.append "cz" (Py.str i)]]>
             (<[a := wa ++ [ta] ++ [String.append "cz" (Py.str i)]]> wires))
          (i + 1) n).
Proof.
  intros Hd Hn Hq Ha Htop Hb'. unfold cz_body. rewrite Hd. cbn [bind].
  rewrite Hn, Hq, get_head, get_second. cbn [bind].
  unfold top_is_cz. rewrite (top_lookup _ _ _ _ Ha). cbn [bind].
  destruct (String.eqb (Py.prefix2 ta) "cz") eqn:Eta.
  - destruct Htop as [H|[Hb H]]; [discriminate|].
    rewrite (top_lookup _ _ _ _ Hb). cbn [bind]. rewrite H. cbn [andb].
    rewrite (push_lookup _ _ _ _ Ha). cbn [bind]. rewrite <- app_assoc.
    now rewrite (push_lookup _ _ _ _ Hb').
  - cbn [bind andb].
    rewrite (push_lookup _ _ _ _ Ha). cbn [bind]. rewrite <- app_assoc.
    now rewrite (push_lookup _ _ _ _ Hb').
Qed.

(** When the tops of both wires are cz tags, whatever their indices, the
    cz under the scan and the entry at the index of the tag of the first
    wire are deleted. *)
Lemma cz_step_cancel (d d1 d2 : list Instr) (wires : Wires) (i n k : Z)
    (item : Instr) (a b : nat) (qs : list nat)
    (wa wb wb' : list string) (ta tb tb' : string) :
  Py.get d i = OK item ->
  String.eqb (name (gate item)) "cz" = true ->
  qargs item = a :: b :: qs ->
  wires !! a = Some (wa ++ [ta]) ->
  String.eqb (Py.prefix2 ta) "cz" = true ->
  wires !! b = Some (wb ++ [tb]) ->
  String.eqb (Py.prefix2 tb) "cz" = true ->
  Py.pop d i = OK d1 ->
  Py.int (Py.suffix2 ta) = OK k ->
  Py.pop d1 k = OK d2 ->
  (<[a := wa]> wires) !! b = Some (wb' ++ [tb']) ->
  cz_body (mkCz d wires i n)
  = OK (mkCz d2 (<[b := wb']> (<[a := wa]> wires)) (i - 2 + 1) (n - 2)).
Proof.
  intros Hd Hn Hq Ha Hta Hb Htb Hp1 Hk Hp2 Hb'. unfold cz_body.
  rewrite Hd. cbn [bind]. rewrite Hn, Hq, get_head, get_second. cbn [bind].
  unfold top_is_cz. rewrite (top_lookup _ _ _ _ Ha). cbn [bind]. rewrite Hta.
  rewrite (top_lookup _ _ _ _ Hb). cbn [bind]. rewrite Htb. cbn [andb].
  rewrite Hp1. cbn [bind]. rewrite Hk. cbn [bind]. rewrite Hp2. cbn [bind].
  rewrite (drop_top_lookup _ _ _ _ Ha). cbn [bind].
  now rewrite (drop_top_lookup _ _ _ _ Hb').
Qed.

(** ** Running [removeDoubleCZ] on wires that are idle but for a few *)

(** Lookups in, and equalities of, stacks of wires that are the idle ones
    updated at some qubits: decided qubit by qubit. *)
Ltac wires_lookup :=
  rewrite ?list_lookup_insert, ?length_insert, ?length_replicate;
  repeat case_decide;
  first [exfalso; lia | reflexivity | apply lookup_replicate_2; lia].

Ltac wires_eq :=
  apply list_eq; intros ?;
  rewrite ?list_lookup_insert, ?length_insert, ?length_replicate;
  repeat case_decide;
  solve [ exfalso; lia | reflexivity
        | rewrite lookup_replicate_2 by lia; reflexivity ].

(** One turn of the loop, by the step that applies. The stacks below the
    tops [ta] and [tb] of the two wires are [wa] and [wb]. *)
Ltac cz_other item q :=
  rewrite while_unfold by reflexivity;
  erewrite (cz_step_other _ _ _ _ item q []);
  [|reflexivity|first [reflexivity|eassumption]|reflexivity|wires_lookup];
  cbn [bind].

Ltac cz_push item a b wa ta wb tb :=
  rewrite while_unfold by reflexivity;
  erewrite (cz_step_push _ _ _ _ item a b [] wa wb _ ta tb);
  [|reflexivity|reflexivity|reflexivity|wires_lookup
   |first [now left | right; split; [wires_lookup|reflexivity]]
   |wires_lookup];
  cbn [bind].

Ltac cz_cancel item a b wa ta wb tb wb' tb' :=
  rewrite while_unfold by reflexivity;
  erewrite (cz_step_cancel _ _ _ _ _ _ _ item a b [] wa wb wb' ta tb tb');
  [|reflexivity|reflexivity|reflexivity|wires_lookup|reflexivity
   |wires_lookup|reflexivity|reflexivity|reflexivity|reflexivity|wires_lookup];
  cbn [bind].

Ltac cz_exit :=
  rewrite while_exit by reflexivity;
  cbn [bind cz_data cz_wires set_data app];
  f_equal; f_equal; wires_eq.

(** ** Two cz in a row *)

Lemma combine_wires_idle (k : nat) (d : list Instr) (pops : list Z) :
  combine_wires (replicate k [EmptyString]) d pops = OK (d, pops).
Proof.
  induction k as [|k IH]; [reflexivity|].
  cbn [replicate combine_wires]. rewrite while_exit by reflexivity. exact IH.
Qed.

Lemma removeDoubleCZ_pair (nq ncl a b : nat) :
  (a < nq)%nat -> (b < nq)%nat ->
  removeDoubleCZ (mkCircuit nq ncl [cz a b; cz a b])
  = OK (mkCircuit nq ncl [], replicate nq [EmptyString]).
Proof.
  intros Ha Hb. unfold removeDoubleCZ. cbn [data num_qubits length].
  destruct (decide (a = b)) as [->|Hab].
  - cz_push (cz b b) b b (@nil string) EmptyString (@nil string) EmptyString.
    cz_cancel (cz b b) b b [EmptyString; "cz0"%string] "cz0"%string
      [EmptyString; "cz0"%string] "cz0"%string [EmptyString] "cz0"%string.
    cz_exit.
  - cz_push (cz a b) a b (@nil string) EmptyString (@nil string) EmptyString.
    cz_cancel (cz a b) a b [EmptyString] "cz0"%string
      [EmptyString] "cz0"%string [EmptyString] "cz0"%string.
    cz_exit.
Qed.

(** The same when the second cz names the two qubits in the other order. *)
Lemma removeDoubleCZ_pair_swapped (nq ncl a b : nat) :
  (a < nq)%nat -> (b < nq)%nat ->
  removeDoubleCZ (mkCircuit nq ncl [cz a b; cz b a])
  = OK (mkCircuit nq ncl [], replicate nq [EmptyString]).
Proof.
  intros Ha Hb.
  destruct (decide (a = b)) as [->|Hab]; [now apply removeDoubleCZ_pair|].
  unfold removeDoubleCZ. cbn [data num_qubits length].
  cz_push (cz a b) a b (@nil string) EmptyString (@nil string) EmptyString.
  cz_cancel (cz b a) b a [EmptyString] "cz0"%string
    [EmptyString] "cz0"%string [EmptyString] "cz0"%string.
  cz_exit.
Qed.

(** C8. Two cz on the same pair of qubits of the circuit, the qubits given
    in the same order or swapped, and nothing else: the driver returns the
    circuit without instructions. *)
Theorem simplify_cancels_cz_pair (nq ncl a b : nat) :
  (a < nq)%nat -> (b < nq)%nat ->
  simplify (mkCircuit nq ncl [cz a b; cz a b]) = OK (mkCircuit nq ncl []) /\
  simplify (mkCircuit nq ncl [cz a b; cz b a]) = OK (mkCircuit nq ncl []).
Proof.
  intros Ha Hb. unfold simplify. rewrite !removeZeroRotations_filter.
  cbn [bind]. split.
  - change (set_data _ _) with (mkCircuit nq ncl [cz a b; cz a b]).
    rewrite removeDoubleCZ_pair by assumption. cbn [bind fst snd].
    unfold combineRotations. cbn [data]. rewrite combine_wires_idle. reflexivity.
  - change (set_data _ _) with (mkCircuit nq ncl [cz a b; cz b a]).
    rewrite removeDoubleCZ_pair_swapped by assumption. cbn [bind fst snd].
    unfold combineRotations. cbn [data]. rewrite combine_wires_idle. reflexivity.
Qed.

Lemma simplify_cancels_cz_pair_witness :
  simplify (mkCircuit 5 5 [cz 3 4; cz 3 4]) = OK (mkCircuit 5 5 []) /\
  simplify (mkCircuit 5 5 [cz 3 4; cz 4 3]) = OK (mkCircuit 5 5 []).
Proof. apply simplify_cancels_cz_pair; lia. Defined.

(** ** The steps of [combineRotations] *)

(** Two neighbours on a wire whose tags differ in their first two
    characters: the scan moves on. *)
Lemma cr_step_skip (d : list Instr) (pops : list Z) (w : list string) (i n : Z)
    (a b : string) :
  Py.get w i = OK a ->
  Py.get w (i + 1) = OK b ->
  String.eqb (Py.prefix2 a) (Py.prefix2 b) = false ->
  cr_body (mkCr d pops w i n) = OK (mkCr d pops w (i + 1) n).
Proof.
  intros Ha Hb Hab. unfold cr_body. rewrite Ha, Hb. cbn [bind]. now rewrite Hab.
Qed.

(** Two neighbours whose tags agree in their first two characters, and a
    sum that does not round to a full turn: the later entry gets the sum,
    the earlier one is marked and leaves the wire. *)
Lemma cr_step_fuse (d d' : list Instr) (pops : list Z) (w w1 : list string)
    (i n index1 index2 : Z) (a b : string) (angle1 angle2 : float) :
  Py.get w i = OK a ->
  Py.get w (i + 1) = OK b ->
  String.eqb (Py.prefix2 a) (Py.prefix2 b) = true ->
  Py.int (Py.suffix2 a) = OK index1 ->
  Py.int (Py.suffix2 b) = OK index2 ->
  get_angle d index1 = OK angle1 ->
  get_angle d index2 = OK angle2 ->
  set_angle d index2 (angle1 + angle2)%float = OK d' ->
  Py.del w i = OK w1 ->
  is_full_turn (angle1 + angle2)%float = false ->
  cr_body (mkCr d pops w i n)
  = OK (mkCr d' (pops ++ [index1]) w1 (i - 1 + 1) (n - 1)).
Proof.
  intros Ha Hb Hab H1 H2 Ha1 Ha2 Hs Hd Hr. unfold cr_body.
  rewrite Ha, Hb. cbn [bind]. rewrite Hab, H1. cbn [bind]. rewrite H2. cbn [bind].
  rewrite Ha1. cbn [bind]. rewrite Ha2. cbn [bind]. rewrite Hs. cbn [bind].
  rewrite Hd. cbn [bind]. now rewrite Hr.
Qed.

(** The same with a sum that rounds to a full turn: both entries are
    marked and leave the wire, and the scan steps back. *)
Lemma cr_step_collapse (d d' : list Instr) (pops : list Z) (w w1 w2 : list string)
    (i n index1 index2 : Z) (a b : string) (angle1 angle2 : float) :
  Py.get w i = OK a ->
  Py.get w (i + 1) = OK b ->
  String.eqb (Py.prefix2 a) (Py.prefix2 b) = true ->
  Py.int (Py.suffix2 a) = OK index1 ->
  Py.int (Py.suffix2 b) = OK index2 ->
  get_angle d index1 = OK angle1 ->
  get_angle d index2 = OK angle2 ->
  set_angle d index2 (angle1 + angle2)%float = OK d' ->
  Py.del w i = OK w1 ->
  is_full_turn (angle1 + angle2)%float = true ->
  Py.del w1 (i - 1 + 1) = OK w2 ->
  cr_body (mkCr d pops w i n)
  = OK (mkCr d' ((pops ++ [index1]) ++ [index2]) w2 (i - 1 - 2 + 1) (n - 1 - 1)).
Proof.
  intros Ha Hb Hab H1 H2 Ha1 Ha2 Hs Hd Hr Hd2. unfold cr_body.
  rewrite Ha, Hb. cbn [bind]. rewrite Hab, H1. cbn [bind]. rewrite H2. cbn [bind].
  rewrite Ha1. cbn [bind]. rewrite Ha2. cbn [bind]. rewrite Hs. cbn [bind].
  rewrite Hd. cbn [bind]. rewrite Hr. now rewrite Hd2.
Qed.

(** ** Three rotations on one wire *)

(** A circuit whose wires are idle but for wire [q]. *)
Lemma combine_wires_single (nq q : nat) (w : list string) (d : list Instr)
    (pops : list Z) :
  (q < nq)%nat ->
  combine_wires (<[q := w]> (replicate nq [EmptyString])) d pops
  = (s <- while cr_cond cr_body (3 * length w)
            (mkCr d pops w 0 (Z.of_nat (length w))) ;;
     OK (cr_data s, cr_pops s)).
Proof.
  revert nq. induction q as [|q IH]; intros [|nq] Hq; try lia.
  - cbn [replicate combine_wires]. change (<[0%nat := w]> (?x :: ?l)) with (w :: l).
    cbn [combine_wires].
    destruct (while _ _ _ _) as [s|e]; cbn [bind]; [|reflexivity].
    apply combine_wires_idle.
  - cbn [replicate]. change (<[S q := w]> (?x :: ?l)) with (x :: <[q := w]> l).
    cbn [combine_wires]. rewrite while_exit by reflexivity. cbn [bind cr_data cr_pops].
    apply IH. lia.
Qed.

Lemma removeDoubleCZ_three (nq ncl q : nat) (nm : string) (t1 t2 t3 : float) :
  (q < nq)%nat ->
  String.eqb nm "cz" = false ->
  removeDoubleCZ (mkCircuit nq ncl [rot nm t1 q; rot nm t2 q; rot nm t3 q])
  = OK (mkCircuit nq ncl [rot nm t1 q; rot nm t2 q; rot nm t3 q],
        <[q := [EmptyString; String.append nm "0"; String.append nm "1";
                String.append nm "2"]]> (replicate nq [EmptyString])).
Proof.
  intros Hq Hnm. unfold removeDoubleCZ. cbn [data num_qubits length].
  cz_other (rot nm t1 q) q. cz_other (rot nm t2 q) q. cz_other (rot nm t3 q) q.
  cz_exit.
Qed.

Ltac cr_step :=
  rewrite while_unfold by reflexivity;
  first
    [ erewrite cr_step_skip by reflexivity
    | erewrite cr_step_fuse; [|reflexivity..|eassumption]
    | erewrite cr_step_collapse; [|reflexivity..|eassumption|reflexivity] ];
  cbn [bind].

Lemma combineRotations_three (nq ncl q : nat) (nm : string) (t1 t2 t3 : float) :
  (q < nq)%nat ->
  nm = "rx"%string \/ nm = "rz"%string ->
  let c := mkCircuit nq ncl [rot nm t1 q; rot nm t2 q; rot nm t3 q] in
  let wires :=
    <[q := [EmptyString; String.append nm "0"; String.append nm "1";
            String.append nm "2"]]> (replicate nq [EmptyString]) in
  (is_full_turn (t1 + t2)%float = false ->
   is_full_turn (t1 + t2 + t3)%float = false ->
   combineRotations c wires
   = OK (mkCircuit nq ncl [rot nm (t1 + t2 + t3)%float q])) /\
  (is_full_turn (t1 + t2)%float = true ->
   combineRotations c wires = OK (mkCircuit nq ncl [rot nm t3 q])).
Proof.
  intros Hq Hnm c wires. subst c wires. unfold combineRotations.
  rewrite combine_wires_single by exact Hq. cbn [data length Nat.mul Nat.add].
  split.
  - intros H12 H123.
    destruct Hnm as [-> | ->];
      do 3 cr_step; rewrite while_exit by reflexivity; reflexivity.
  - intros H12.
    destruct Hnm as [-> | ->];
      do 4 cr_step; rewrite while_exit by reflexivity; reflexivity.
Qed.

(** C4, as amended. A circuit that holds three rx, or three rz, on one
    qubit and nothing else, none of the angles being 0 or [2*PI]. If neither
    the sum of the first two angles nor the sum of all three rounds to a
    full turn at two decimals, the driver returns one rotation, whose angle
    is the binary64 sum of the three, not reduced modulo a full turn and
    kept also when it is 0. If the sum of the first two angles rounds to a
    full turn, the driver returns the third rotation alone. *)
Theorem simplify_fuses_three (nq ncl q : nat) (nm : string) (t1 t2 t3 : float) :
  (q < nq)%nat ->
  nm = "rx"%string \/ nm = "rz"%string ->
  is_zero_rotation [t1] = false ->
  is_zero_rotation [t2] = false ->
  is_zero_rotation [t3] = false ->
  let c := mkCircuit nq ncl [rot nm t1 q; rot nm t2 q; rot nm t3 q] in
  (is_full_turn (t1 + t2)%float = false ->
   is_full_turn (t1 + t2 + t3)%float = false ->
   simplify c = OK (mkCircuit nq ncl [rot nm (t1 + t2 + t3)%float q])) /\
  (is_full_turn (t1 + t2)%float = true ->
   simplify c = OK (mkCircuit nq ncl [rot nm t3 q])).
Proof.
  intros Hq Hnm Hz1 Hz2 Hz3 c. subst c. unfold simplify.
  rewrite removeZeroRotations_filter. cbn [bind data List.filter].
  unfold kept. cbn [rot params gate]. rewrite Hz1, Hz2, Hz3. cbn [negb].
  change (set_data _ _)
    with (mkCircuit nq ncl [rot nm t1 q; rot nm t2 q; rot nm t3 q]).
  rewrite removeDoubleCZ_three;
    [|exact Hq|destruct Hnm as [-> | ->]; reflexivity].
  cbn [bind fst snd]. now apply combineRotations_three.
Qed.

Lemma simplify_fuses_three_witness :
  simplify (mkCircuit 3 0 [rx 1 2; rx 2 2; rx 3 2]) = OK (mkCircuit 3 0 [rx 6 2]).
Proof.
  refine (proj1 (simplify_fuses_three 3 0 2 "rx" 1 2 3 _ _ _ _ _) _ _);
    solve [lia | now left | reflexivity].
Defined.

(** C4, the claim as stated fails: three rx on one wire whose angles sum to
    0. The sum rounds to 0 at two decimals, yet the driver returns a
    rotation on that wire, of angle 0. *)
Lemma simplify_keeps_zero_sum :
  (round2 (1 + 2 + -3) =? 0)%float = true /\
  simplify (mkCircuit 1 0 [rx 1 0; rx 2 0; rx (-3) 0])
  = OK (mkCircuit 1 0 [rx 0 0]).
Proof. split; vm_compute; reflexivity. Qed.

(** When the sum of the three rounds to a full turn the wire's stack is
    left with its sentinel alone and the scan, stepping back to index -1,
    compares the sentinel with itself and reads an index out of the empty
    string. *)
Lemma simplify_full_turn_raises :
  is_full_turn (1 + 2 + (two_PI - 3))%float = true /\
  simplify (mkCircuit 1 0 [rx 1 0; rx 2 0; rx (two_PI - 3)%float 0])
  = Error ValueError.
Proof. split; vm_compute; reflexivity. Qed.

(** ** The defects of the cancellation and fusion passes *)

(** C1. Four different qubits; the scan reaches cz(b,c) with the tag of
    cz(a,b) on top of wire b and the tag of cz(c,d) on top of wire c, two
    different cz. [removeDoubleCZ] cancels all the same: it deletes cz(b,c)
    and cz(a,b), the entry at the index on wire b. *)
Theorem removeDoubleCZ_cancels_unrelated_cz (nq ncl a b c d : nat) :
  (a < nq)%nat -> (b < nq)%nat -> (c < nq)%nat -> (d < nq)%nat ->
  a <> b -> a <> c -> a <> d -> b <> c -> b <> d -> c <> d ->
  removeDoubleCZ (mkCircuit nq ncl [cz a b; cz c d; cz b c])
  = OK (mkCircuit nq ncl [cz c d],
        <[d := [EmptyString; "cz1"]%string]>
          (<[a := [EmptyString; "cz0"]%string]> (replicate nq [EmptyString]))).
Proof.
  intros Ha Hb Hc Hd Hab Hac Had Hbc Hbd Hcd.
  unfold removeDoubleCZ. cbn [data num_qubits length].
  cz_push (cz a b) a b (@nil string) EmptyString (@nil string) EmptyString.
  cz_push (cz c d) c d (@nil string) EmptyString (@nil string) EmptyString.
  cz_cancel (cz b c) b c [EmptyString] "cz0"%string
    [EmptyString] "cz1"%string [EmptyString] "cz1"%string.
  cz_exit.
Qed.

Lemma removeDoubleCZ_cancels_unrelated_cz_witness :
  removeDoubleCZ (mkCircuit 4 0 [cz 0 1; cz 2 3; cz 1 2])
  = OK (mkCircuit 4 0 [cz 2 3],
        [[EmptyString; "cz0"]; [EmptyString]; [EmptyString];
         [EmptyString; "cz1"]]%string).
Proof. apply (removeDoubleCZ_cancels_unrelated_cz 4 0 0 1 2 3); lia. Defined.

(** ** Indices that a cancellation leaves behind *)

Lemma removeDoubleCZ_around (nq ncl a b q : nat) (t1 : float) :
  (a < nq)%nat -> (b < nq)%nat -> (q < nq)%nat ->
  a <> b -> q <> a -> q <> b ->
  removeDoubleCZ (mkCircuit nq ncl [cz a b; rx t1 q; cz a b])
  = OK (mkCircuit nq ncl [rx t1 q],
        <[q := [EmptyString; "rx1"]%string]> (replicate nq [EmptyString])).
Proof.
  intros Ha Hb Hq Hab Hqa Hqb.
  unfold removeDoubleCZ. cbn [data num_qubits length].
  cz_push (cz a b) a b (@nil string) EmptyString (@nil string) EmptyString.
  cz_other (rx t1 q) q.
  cz_cancel (cz a b) a b [EmptyString] "cz0"%string
    [EmptyString] "cz0"%string [EmptyString] "cz0"%string.
  cz_exit.
Qed.

Lemma removeDoubleCZ_around_then (nq ncl a b q : nat) (t1 t2 : float) :
  (a < nq)%nat -> (b < nq)%nat -> (q < nq)%nat ->
  a <> b -> q <> a -> q <> b ->
  removeDoubleCZ (mkCircuit nq ncl [cz a b; rx t1 q; cz a b; rx t2 q])
  = OK (mkCircuit nq ncl [rx t1 q; rx t2 q],
        <[q := [EmptyString; "rx1"; "rx1"]%string]> (replicate nq [EmptyString])).
Proof.
  intros Ha Hb Hq Hab Hqa Hqb.
  unfold removeDoubleCZ. cbn [data num_qubits length].
  cz_push (cz a b) a b (@nil string) EmptyString (@nil string) EmptyString.
  cz_other (rx t1 q) q.
  cz_cancel (cz a b) a b [EmptyString] "cz0"%string
    [EmptyString] "cz0"%string [EmptyString] "cz0"%string.
  cz_other (rx t2 q) q.
  cz_exit.
Qed.

(** C2. A cz on a and b, an rx on another qubit q, the same cz again. The
    two cz cancel and the rx moves to index 0, but its tag on wire q still
    reads index 1, which the returned sequence does not have. With a second
    rx on q after them both tags read index 1: [simplify] adds the second
    angle to itself and then deletes the second rx, so that the first
    rotation is returned alone, with its angle. *)
Theorem removeDoubleCZ_leaves_stale_indices (nq ncl a b q : nat) (t1 t2 : float) :
  (a < nq)%nat -> (b < nq)%nat -> (q < nq)%nat ->
  a <> b -> q <> a -> q <> b ->
  is_zero_rotation [t1] = false ->
  is_zero_rotation [t2] = false ->
  is_full_turn (t2 + t2)%float = false ->
  (exists wires,
      removeDoubleCZ (mkCircuit nq ncl [cz a b; rx t1 q; cz a b])
      = OK (mkCircuit nq ncl [rx t1 q], wires) /\
      wires !! q = Some [EmptyString; "rx1"]%string /\
      Py.get [rx t1 q] 1 = Error IndexError) /\
  simplify (mkCircuit nq ncl [cz a b; rx t1 q; cz a b; rx t2 q])
  = OK (mkCircuit nq ncl [rx t1 q]).
Proof.
  intros Ha Hb Hq Hab Hqa Hqb Hz1 Hz2 Hft. split.
  - eexists. split; [now apply removeDoubleCZ_around|].
    split; [|reflexivity].
    apply list_lookup_insert_eq. rewrite length_replicate. lia.
  - unfold simplify. rewrite removeZeroRotations_filter.
    cbn [bind data List.filter]. unfold kept.
    change (params (gate (rx t1 q))) with [t1].
    change (params (gate (rx t2 q))) with [t2].
    rewrite Hz1, Hz2. cbn [negb].
    change (set_data _ _)
      with (mkCircuit nq ncl [cz a b; rx t1 q; cz a b; rx t2 q]).
    rewrite removeDoubleCZ_around_then by assumption. cbn [bind fst snd].
    unfold combineRotations.
    rewrite combine_wires_single by exact Hq. cbn [data length Nat.mul Nat.add].
    do 2 cr_step. rewrite while_exit by reflexivity. reflexivity.
Qed.

Lemma removeDoubleCZ_leaves_stale_indices_witness :
  (exists wires,
      removeDoubleCZ (mkCircuit 3 0 [cz 0 1; rx 1 2; cz 0 1])
      = OK (mkCircuit 3 0 [rx 1 2], wires) /\
      wires !! 2%nat = Some [EmptyString; "rx1"]%string /\
      Py.get [rx 1 2] 1 = Error IndexError) /\
  simplify (mkCircuit 3 0 [cz 0 1; rx 1 2; cz 0 1; rx 2 2])
  = OK (mkCircuit 3 0 [rx 1 2]).
Proof.
  apply (removeDoubleCZ_leaves_stale_indices 3 0 0 1 2 1 2);
    solve [lia | reflexivity].
Defined.

(** ** A rotation between two cz *)

(** The scan of the wires stops at the first wire whose scan raises, the
    wires before it having left the sequence and the marks as they were. *)
Lemma combine_wires_raises (j : nat) (wires : Wires) (w : list string)
    (d : list Instr) (pops : list Z) (e : exn) :
  wires !! j = Some w ->
  (forall k w', (k < j)%nat -> wires !! k = Some w' ->
     exists s, while cr_cond cr_body (3 * length w')
                 (mkCr d pops w' 0 (Z.of_nat (length w'))) = OK s /\
               cr_data s = d /\ cr_pops s = pops) ->
  while cr_cond cr_body (3 * length w) (mkCr d pops w 0 (Z.of_nat (length w)))
  = Error e ->
  combine_wires wires d pops = Error e.
Proof.
  revert wires. induction j as [|j IH]; intros [|w0 wires] Hj Hbefore He;
    try discriminate.
  - injection Hj as ->. cbn [combine_wires]. now rewrite He.
  - cbn [combine_wires].
    destruct (Hbefore 0%nat w0) as (s & Hs & Hd & Hp); [lia|reflexivity|].
    rewrite Hs. cbn [bind]. rewrite Hd, Hp. apply IH; [exact Hj| |exact He].
    intros k w' Hk Hw'. apply (Hbefore (S k)); [lia|exact Hw'].
Qed.

Lemma removeDoubleCZ_separated (nq ncl x y : nat) (t : float) :
  (x < nq)%nat -> (y < nq)%nat -> x <> y ->
  let c := mkCircuit nq ncl [cz x y; rz t x; cz x y] in
  removeDoubleCZ c
  = OK (c, <[y := [EmptyString; "cz0"; "cz2"]%string]>
             (<[x := [EmptyString; "cz0"; "rz1"; "cz2"]%string]>
                (replicate nq [EmptyString]))).
Proof.
  intros Hx Hy Hxy c. subst c. unfold removeDoubleCZ. cbn [data num_qubits length].
  cz_push (cz x y) x y (@nil string) EmptyString (@nil string) EmptyString.
  cz_other (rz t x) x.
  cz_push (cz x y) x y [EmptyString; "cz0"%string] "rz1"%string
    (@nil string) EmptyString.
  cz_exit.
Qed.

(** C7. A cz on qubits x and y, an rz on x, the same cz again.
    [removeDoubleCZ] cancels nothing and returns the three instructions; but
    on wire y the tags of the two cz are neighbours, and [simplify] ends in
    the [IndexError] that [combineRotations] raises on them. *)
Theorem simplify_raises_on_separated_cz (nq ncl x y : nat) (t : float) :
  (x < nq)%nat -> (y < nq)%nat -> x <> y ->
  is_zero_rotation [t] = false ->
  let c := mkCircuit nq ncl [cz x y; rz t x; cz x y] in
  (exists wires,
      removeDoubleCZ c = OK (c, wires) /\
      wires !! y = Some [EmptyString; "cz0"; "cz2"]%string) /\
  simplify c = Error IndexError.
Proof.
  intros Hx Hy Hxy Ht c.
  pose proof (removeDoubleCZ_separated nq ncl x y t Hx Hy Hxy) as Hcz.
  cbn zeta in Hcz. subst c.
  assert (Hwy : forall wx : list string,
             (<[y := [EmptyString; "cz0"; "cz2"]%string]>
                (<[x := wx]> (replicate nq [EmptyString]))) !! y
             = Some [EmptyString; "cz0"; "cz2"]%string).
  { intros wx. apply list_lookup_insert_eq.
    rewrite length_insert, length_replicate. lia. }
  split.
  - eexists. split; [exact Hcz|apply Hwy].
  - unfold simplify. rewrite removeZeroRotations_filter.
    cbn [bind data List.filter]. unfold kept.
    change (params (gate (rz t x))) with [t]. rewrite Ht. cbn [negb].
    change (set_data _ _) with (mkCircuit nq ncl [cz x y; rz t x; cz x y]).
    rewrite Hcz. cbn [bind fst snd].
    unfold combineRotations.
    erewrite (combine_wires_raises y); [reflexivity|apply Hwy| |reflexivity].
    intros k w' Hk Hw'.
    rewrite list_lookup_insert_ne in Hw' by lia.
    destruct (decide (k = x)) as [->|Hkx].
    + rewrite list_lookup_insert_eq in Hw' by (rewrite length_replicate; lia).
      injection Hw' as <-. eexists. split; [reflexivity|]. split; reflexivity.
    + rewrite list_lookup_insert_ne in Hw' by done.
      apply lookup_replicate in Hw' as [-> _].
      eexists. split; [reflexivity|]. split; reflexivity.
Qed.

Lemma simplify_raises_on_separated_cz_witness :
  (exists wires,
      removeDoubleCZ (mkCircuit 2 0 [cz 0 1; rz 1 0; cz 0 1])
      = OK (mkCircuit 2 0 [cz 0 1; rz 1 0; cz 0 1], wires) /\
      wires !! 1%nat = Some [EmptyString; "cz0"; "cz2"]%string) /\
  simplify (mkCircuit 2 0 [cz 0 1; rz 1 0; cz 0 1]) = Error IndexError.
Proof.
  apply (simplify_raises_on_separated_cz 2 0 0 1 1); solve [lia | reflexivity].
Defined.

(** ** Two cz that share a qubit *)

Lemma removeDoubleCZ_fan (nq ncl a b c : nat) :
  (a < nq)%nat -> (b < nq)%nat -> (c < nq)%nat ->
  a <> b -> a <> c -> b <> c ->
  let circuit := mkCircuit nq ncl [cz a b; cz a c] in
  removeDoubleCZ circuit
  = OK (circuit,
        <[c := [EmptyString; "cz1"]%string]>
          (<[b := [EmptyString; "cz0"]%string]>
             (<[a := [EmptyString; "cz0"; "cz1"]%string]>
                (replicate nq [EmptyString])))).
Proof.
  intros Ha Hb Hc Hab Hac Hbc circuit. subst circuit.
  unfold removeDoubleCZ. cbn [data num_qubits length].
  cz_push (cz a b) a b (@nil string) EmptyString (@nil string) EmptyString.
  cz_push (cz a c) a c [EmptyString] "cz0"%string (@nil string) EmptyString.
  cz_exit.
Qed.

(** C3. Two cz that share their first qubit a and differ in the second:
    their tags, "cz0" and "cz1", are neighbours on wire a and agree in
    their first two characters, so [combineRotations] takes the branch that
    fuses and raises [IndexError] on the empty parameter list of a cz; so
    does [simplify]. *)
Theorem combineRotations_fuses_cz_tags (nq ncl a b c : nat) :
  (a < nq)%nat -> (b < nq)%nat -> (c < nq)%nat ->
  a <> b -> a <> c -> b <> c ->
  let circuit := mkCircuit nq ncl [cz a b; cz a c] in
  (exists wires,
      removeDoubleCZ circuit = OK (circuit, wires) /\
      wires !! a = Some [EmptyString; "cz0"; "cz1"]%string /\
      combineRotations circuit wires = Error IndexError) /\
  simplify circuit = Error IndexError.
Proof.
  intros Ha Hb Hc Hab Hac Hbc circuit.
  pose proof (removeDoubleCZ_fan nq ncl a b c Ha Hb Hc Hab Hac Hbc) as Hcz.
  cbn zeta in Hcz. subst circuit.
  set (wires := <[c := _]> _) in Hcz.
  assert (Hwa : wires !! a = Some [EmptyString; "cz0"; "cz1"]%string).
  { subst wires. rewrite !list_lookup_insert_ne by done.
    apply list_lookup_insert_eq. rewrite length_replicate. lia. }
  assert (Hcr : combineRotations (mkCircuit nq ncl [cz a b; cz a c]) wires
                = Error IndexError).
  { unfold combineRotations.
    erewrite (combine_wires_raises a); [reflexivity|exact Hwa| |reflexivity].
    intros k w' Hk Hw'. subst wires.
    destruct (decide (k = c)) as [->|Hkc].
    { rewrite list_lookup_insert_eq in Hw'
        by (rewrite !length_insert, length_replicate; lia).
      injection Hw' as <-. eexists. split; [reflexivity|]. split; reflexivity. }
    rewrite list_lookup_insert_ne in Hw' by done.
    destruct (decide (k = b)) as [->|Hkb].
    { rewrite list_lookup_insert_eq in Hw'
        by (rewrite !length_insert, length_replicate; lia).
      injection Hw' as <-. eexists. split; [reflexivity|]. split; reflexivity. }
    rewrite !list_lookup_insert_ne in Hw' by (done || lia).
    apply lookup_replicate in Hw' as [-> _].
    eexists. split; [reflexivity|]. split; reflexivity. }
  split.
  - exists wires. auto.
  - unfold simplify. rewrite removeZeroRotations_filter. cbn [bind].
    change (set_data _ _) with (mkCircuit nq ncl [cz a b; cz a c]).
    rewrite Hcz. cbn [bind fst snd]. exact Hcr.
Qed.

Lemma combineRotations_fuses_cz_tags_witness :
  (exists wires,
      removeDoubleCZ (mkCircuit 3 0 [cz 0 1; cz 0 2])
      = OK (mkCircuit 3 0 [cz 0 1; cz 0 2], wires) /\
      wires !! 0%nat = Some [EmptyString; "cz0"; "cz1"]%string /\
      combineRotations (mkCircuit 3 0 [cz 0 1; cz 0 2]) wires = Error IndexError) /\
  simplify (mkCircuit 3 0 [cz 0 1; cz 0 2]) = Error IndexError.
Proof. apply (combineRotations_fuses_cz_tags 3 0 0 1 2); lia. Defined.

(** ** [compiler] and the gates on three qubits or more *)

Section CompilerFacts.
Variable oneQubitDecomppser : Gate -> result Circuit.
Variable twoQubitDecomppser : Gate -> result Circuit.

Lemma lower_skips (dc : Circuit) (item : Instr) :
  lowered item = false ->
  lower oneQubitDecomppser twoQubitDecomppser dc item = OK dc.
Proof.
  unfold lowered, lower. intros H.
  apply orb_false_iff in H as [H1 H2]. now rewrite H1, H2.
Qed.

Lemma lower_all_filter (items : list Instr) (dc : Circuit) :
  lower_all oneQubitDecomppser twoQubitDecomppser items dc
  = lower_all oneQubitDecomppser twoQubitDecomppser
      (List.filter lowered items) dc.
Proof.
  revert dc. induction items as [|item rest IH]; intros dc; [reflexivity|].
  cbn [List.filter]. destruct (lowered item) eqn:E.
  - cbn [lower_all].
    destruct (lower _ _ dc item); cbn [bind]; [apply IH|reflexivity].
  - cbn [lower_all]. rewrite lower_skips by exact E. cbn [bind]. apply IH.
Qed.

(** The gates on neither one nor two qubits do not count: the result, a
    circuit or the failure of a decomposer, is that of the input without
    them. *)
Lemma compiler_filter_lowered (circuit : Circuit) :
  compiler oneQubitDecomppser twoQubitDecomppser circuit
  = compiler oneQubitDecomppser twoQubitDecomppser
      (set_data circuit (List.filter lowered (data circuit))).
Proof.
  unfold compiler. cbn [set_data data num_qubits num_clbits].
  apply lower_all_filter.
Qed.

(** C6, the defect. [compiler] has a branch for the gates on one qubit and
    a branch for the gates on two, and no [else]: a gate on any other
    number of qubits, wherever it stands in the circuit, raises nothing
    and puts nothing in the output. Whatever the decomposers do, the
    result is the one of the circuit from which the gate is taken away:
    the gate is dropped in silence, where the claim says it is rejected
    with an error and never dropped, and where the docstring of [compiler]
    promises an equivalent circuit. *)
Theorem compiler_skips_other_arities (nq ncl : nat) (pre post : list Instr)
    (item : Instr) :
  lowered item = false ->
  compiler oneQubitDecomppser twoQubitDecomppser
    (mkCircuit nq ncl (pre ++ item :: post))
  = compiler oneQubitDecomppser twoQubitDecomppser
      (mkCircuit nq ncl (pre ++ post)).
Proof.
  intros Hitem.
  rewrite (compiler_filter_lowered (mkCircuit nq ncl (pre ++ item :: post))).
  rewrite (compiler_filter_lowered (mkCircuit nq ncl (pre ++ post))).
  cbn [set_data data num_qubits num_clbits].
  rewrite !List.filter_app. cbn [List.filter]. now rewrite Hitem.
Qed.
End CompilerFacts.

Lemma compiler_skips_other_arities_witness :
  lowered (ccx 0 1 2) = false /\
  compiler no_decomposer no_decomposer (mkCircuit 3 0 [ccx 0 1 2])
  = OK (mkCircuit 3 0 []).
Proof.
  split; [reflexivity|].
  exact (eq_trans
           (compiler_skips_other_arities no_decomposer no_decomposer
              3 0 [] [] (ccx 0 1 2) eq_refl)
           eq_refl).
Defined.

(** ** More on [compiler] *)

Lemma get_In {A : Type} (l : list A) (k : Z) (x : A) :
  Py.get l k = OK x -> In x l.
Proof.
  unfold Py.get. intros H. inv_bind H.
  destruct (l !! a) as [y|] eqn:El; cbn in H; [|discriminate].
  injection H as <-. apply list_elem_of_In. eapply list_elem_of_lookup_2. exact El.
Qed.

Section CompilerMore.
Variable oneQubitDecomppser : Gate -> result Circuit.
Variable twoQubitDecomppser : Gate -> result Circuit.

Lemma foldl_append_spec (positions : list nat) (gates : list Gate) (dc : Circuit) :
  foldl (fun c g' => append c g' positions) dc gates
  = set_data dc (data dc ++ map (fun g' => mkInstr g' positions) gates).
Proof.
  revert dc. induction gates as [|g gates IH]; intros dc; cbn [foldl map].
  - rewrite app_nil_r. now destruct dc.
  - rewrite IH. unfold append, set_data. cbn. now rewrite <- app_assoc.
Qed.

(** What one gate adds does not depend on what was emitted before. *)
Lemma splice_prepend (pre : list Instr) (positions : list nat)
    (items : list Instr) (dc : Circuit) :
  splice positions items (prepend pre dc)
  = map_result (prepend pre) (splice positions items dc).
Proof.
  revert dc. induction items as [|item rest IH]; intros dc; [reflexivity|].
  cbn [splice].
  assert (Happ : forall g qs, append (prepend pre dc) g qs = prepend pre (append dc g qs)).
  { intros. unfold append, prepend, set_data. cbn. now rewrite app_assoc. }
  destruct (length (qargs item) =? 2)%nat.
  - rewrite Happ. apply IH.
  - destruct (Py.get (qargs item) 0) as [slot|]; [|reflexivity]. cbn [bind].
    destruct (Py.get positions (Z.of_nat slot)) as [pos|]; [|reflexivity].
    cbn [bind]. rewrite Happ. apply IH.
Qed.

Lemma lower_prepend (pre : list Instr) (dc : Circuit) (item : Instr) :
  lower oneQubitDecomppser twoQubitDecomppser (prepend pre dc) item
  = map_result (prepend pre)
      (lower oneQubitDecomppser twoQubitDecomppser dc item).
Proof.
  unfold lower. destruct (length (qargs item) =? 1)%nat.
  - destruct (oneQubitDecomppser (gate item)); [|reflexivity]. cbn [bind map_result].
    rewrite !foldl_append_spec. unfold prepend, set_data. cbn.
    now rewrite app_assoc.
  - destruct (length (qargs item) =? 2)%nat; [|reflexivity].
    destruct (twoQubitDecomppser (gate item)); [|reflexivity]. cbn [bind].
    apply splice_prepend.
Qed.

Lemma lower_all_prepend (pre : list Instr) (items : list Instr) (dc : Circuit) :
  lower_all oneQubitDecomppser twoQubitDecomppser items (prepend pre dc)
  = map_result (prepend pre)
      (lower_all oneQubitDecomppser twoQubitDecomppser items dc).
Proof.
  revert dc. induction items as [|item rest IH]; intros dc; [reflexivity|].
  cbn [lower_all]. rewrite lower_prepend.
  destruct (lower _ _ dc item); cbn [bind map_result]; [apply IH|reflexivity].
Qed.

Lemma lower_all_app (d1 d2 : list Instr) (dc : Circuit) :
  lower_all oneQubitDecomppser twoQubitDecomppser (d1 ++ d2) dc
  = (dc' <- lower_all oneQubitDecomppser twoQubitDecomppser d1 dc ;;
     lower_all oneQubitDecomppser twoQubitDecomppser d2 dc').
Proof.
  revert dc. induction d1 as [|item rest IH]; intros dc; [reflexivity|].
  cbn [app lower_all]. destruct (lower _ _ dc item); cbn [bind]; [apply IH|reflexivity].
Qed.

(** The width of the circuit under construction never changes. *)
Lemma splice_width (positions : list nat) (items : list Instr) (dc dc' : Circuit) :
  splice positions items dc = OK dc' ->
  num_qubits dc' = num_qubits dc /\ num_clbits dc' = num_clbits dc.
Proof.
  revert dc. induction items as [|item rest IH]; intros dc; cbn [splice].
  - now intros [= <-].
  - intros H. inv_bind H; apply IH in H; exact H.
Qed.

Lemma lower_width (dc dc' : Circuit) (item : Instr) :
  lower oneQubitDecomppser twoQubitDecomppser dc item = OK dc' ->
  num_qubits dc' = num_qubits dc /\ num_clbits dc' = num_clbits dc.
Proof.
  unfold lower. intros H. inv_bind H.
  - injection H as <-. now rewrite foldl_append_spec.
  - now apply splice_width in H.
  - now injection H as <-.
Qed.

Lemma lower_all_width (items : list Instr) (dc dc' : Circuit) :
  lower_all oneQubitDecomppser twoQubitDecomppser items dc = OK dc' ->
  num_qubits dc' = num_qubits dc /\ num_clbits dc' = num_clbits dc.
Proof.
  revert dc. induction items as [|item rest IH]; intros dc; cbn [lower_all].
  - now intros [= <-].
  - intros H. inv_bind H. apply IH in H. apply lower_width in E.
    destruct H, E. split; congruence.
Qed.

(** X1. A circuit that [compiler] returns has as many qubits and as many
    classical bits as the circuit it was given. *)
Theorem compiler_keeps_width (circuit c' : Circuit) :
  compiler oneQubitDecomppser twoQubitDecomppser circuit = OK c' ->
  num_qubits c' = num_qubits circuit /\ num_clbits c' = num_clbits circuit.
Proof.
  unfold compiler. intros H. apply lower_all_width in H. cbn in H.
  destruct H as [Hq Hc]. split; [exact Hq|].
  rewrite Hc. destruct (num_clbits circuit); reflexivity.
Qed.

Lemma splice_from_gate (c : Circuit) (src : Instr) (items : list Instr)
    (dc dc' : Circuit) :
  In src (data c) ->
  length (qargs src) = 2%nat ->
  splice (qargs src) items dc = OK dc' ->
  Forall (from_gate_of c) (data dc) -> Forall (from_gate_of c) (data dc').
Proof.
  intros Hsrc Hlen. revert dc. induction items as [|item rest IH]; intros dc; cbn [splice].
  - now intros [= <-].
  - intros H Hdc. inv_bind H; apply IH in H; try exact H; clear IH.
    + unfold append. cbn. apply Forall_app. split; [exact Hdc|].
      constructor; [|constructor]. split; [now right|]. exists src. now split.
    + unfold append. cbn. apply Forall_app. split; [exact Hdc|].
      constructor; [|constructor]. split; [now left|]. exists src.
      split; [exact Hsrc|]. intros q [<-|[]]. eapply get_In. exact E1.
Qed.

Lemma lower_from_gate (c : Circuit) (src : Instr) (dc dc' : Circuit) :
  In src (data c) ->
  lower oneQubitDecomppser twoQubitDecomppser dc src = OK dc' ->
  Forall (from_gate_of c) (data dc) -> Forall (from_gate_of c) (data dc').
Proof.
  intros Hsrc. unfold lower. intros H Hdc. inv_bind H.
  - injection H as <-. rewrite foldl_append_spec. cbn.
    apply Forall_app. split; [exact Hdc|]. apply Forall_forall.
    intros it Hit. apply list_elem_of_In, in_map_iff in Hit as (g & <- & _). cbn.
    apply Nat.eqb_eq in E. split; [now left|]. exists src. now split.
  - apply Nat.eqb_eq in E0. eapply splice_from_gate; eassumption.
  - now injection H as <-.
Qed.

Lemma lower_all_from_gate (c : Circuit) (items : list Instr) (dc dc' : Circuit) :
  (forall src, In src items -> In src (data c)) ->
  lower_all oneQubitDecomppser twoQubitDecomppser items dc = OK dc' ->
  Forall (from_gate_of c) (data dc) -> Forall (from_gate_of c) (data dc').
Proof.
  revert dc. induction items as [|item rest IH]; intros dc Hin; cbn [lower_all].
  - now intros [= <-].
  - intros H Hdc. inv_bind H. eapply IH; [|exact H|].
    + intros src Hs. apply Hin. now right.
    + eapply lower_from_gate; [|exact E|exact Hdc]. apply Hin. now left.
Qed.

(** X2. Whatever the decomposers return, every instruction of a circuit
    that [compiler] returns acts on one qubit or on two, and only on qubits
    of one gate of the input circuit. *)
Theorem compiler_emits_from_gates (circuit c' : Circuit) :
  compiler oneQubitDecomppser twoQubitDecomppser circuit = OK c' ->
  Forall (from_gate_of circuit) (data c').
Proof.
  unfold compiler. intros H.
  eapply lower_all_from_gate; [|exact H|constructor]. auto.
Qed.

(** X3. Lowering is gate by gate: when the instructions [d1] and [d2] are
    each lowered without an error, their concatenation is lowered to the
    concatenation of the two results. *)
Theorem compiler_app (circuit o1 o2 : Circuit) (d1 d2 : list Instr) :
  compiler oneQubitDecomppser twoQubitDecomppser (set_data circuit d1) = OK o1 ->
  compiler oneQubitDecomppser twoQubitDecomppser (set_data circuit d2) = OK o2 ->
  compiler oneQubitDecomppser twoQubitDecomppser (set_data circuit (d1 ++ d2))
  = OK (set_data o1 (data o1 ++ data o2)).
Proof.
  unfold compiler. cbn [set_data data num_qubits num_clbits].
  set (e := mkCircuit _ _ []). intros H1 H2.
  rewrite lower_all_app, H1. cbn [bind].
  pose proof (lower_all_width _ _ _ H1) as [Hq1 Hc1].
  pose proof (lower_all_width _ _ _ H2) as [Hq2 Hc2].
  assert (Ho1 : o1 = prepend (data o1) e).
  { unfold prepend, set_data. subst e. cbn in *. rewrite app_nil_r.
    destruct o1; cbn in *. congruence. }
  rewrite Ho1 at 1. rewrite lower_all_prepend, H2. cbn [map_result].
  unfold prepend, set_data. f_equal. f_equal; congruence.
Qed.

(** X4. The failure of a decomposer is the failure of [compiler]: when the
    gates before [item] are lowered without an error and the decomposer for
    the arity of [item] fails on its gate, [compiler] fails with the same
    error, whatever follows. *)
Theorem compiler_propagates_failure (circuit o : Circuit)
    (pre rest : list Instr) (item : Instr) (e : exn) :
  compiler oneQubitDecomppser twoQubitDecomppser (set_data circuit pre) = OK o ->
  (length (qargs item) = 1%nat /\ oneQubitDecomppser (gate item) = Error e) \/
  (length (qargs item) = 2%nat /\ twoQubitDecomppser (gate item) = Error e) ->
  compiler oneQubitDecomppser twoQubitDecomppser
    (set_data circuit (pre ++ item :: rest))
  = Error e.
Proof.
  unfold compiler. cbn [set_data data num_qubits num_clbits].
  intros H1 Hfail. rewrite lower_all_app, H1. cbn [bind lower_all].
  unfold lower. destruct Hfail as [[Hl He]|[Hl He]]; rewrite Hl, He; reflexivity.
Qed.
End CompilerMore.

Lemma compiler_keeps_width_witness :
  exists c',
    compiler euler_stub kak_stub (mkCircuit 3 2 [rx 1 2; cz 0 1]) = OK c' /\
    num_qubits c' = 3%nat /\ num_clbits c' = 2%nat.
Proof.
  eexists. split; [reflexivity|].
  apply (compiler_keeps_width euler_stub kak_stub (mkCircuit 3 2 [rx 1 2; cz 0 1])).
  reflexivity.
Defined.

Lemma compiler_emits_from_gates_witness :
  Forall (from_gate_of (mkCircuit 3 2 [rx 1 2; cz 0 1]))
    [rz 1 2; rx 2 2; rz 3 2; rz 1 0; rx 1 1; cz 0 1; rx 2 1].
Proof.
  apply (compiler_emits_from_gates euler_stub kak_stub
           (mkCircuit 3 2 [rx 1 2; cz 0 1])
           (mkCircuit 3 2 [rz 1 2; rx 2 2; rz 3 2; rz 1 0; rx 1 1; cz 0 1; rx 2 1])).
  reflexivity.
Defined.

Lemma compiler_app_witness :
  compiler euler_stub kak_stub (mkCircuit 3 2 ([rx 1 2] ++ [cz 0 1]))
  = OK (mkCircuit 3 2 ([rz 1 2; rx 2 2; rz 3 2] ++ [rz 1 0; rx 1 1; cz 0 1; rx 2 1])).
Proof.
  apply (compiler_app euler_stub kak_stub (mkCircuit 3 2 [])
           (mkCircuit 3 2 [rz 1 2; rx 2 2; rz 3 2])
           (mkCircuit 3 2 [rz 1 0; rx 1 1; cz 0 1; rx 2 1])); reflexivity.
Defined.

Lemma compiler_propagates_failure_witness :
  compiler euler_stub no_decomposer (mkCircuit 3 2 ([rx 1 2] ++ cz 0 1 :: [rx 1 0]))
  = Error DecomposerFailure.
Proof.
  apply (compiler_propagates_failure euler_stub no_decomposer (mkCircuit 3 2 [])
           (mkCircuit 3 2 [rz 1 2; rx 2 2; rz 3 2]));
    [reflexivity|right; split; reflexivity].
Defined.

(** ** More on [removeZeroRotations] *)

Lemma filter_kept_idem (d : list Instr) :
  List.filter kept (List.filter kept d) = List.filter kept d.
Proof.
  induction d as [|x d IH]; [reflexivity|]. cbn [List.filter].
  destruct (kept x) eqn:E; [|exact IH]. cbn [List.filter]. now rewrite E, IH.
Qed.

(** X5. [removeZeroRotations] is idempotent: run on its own result it
    returns it unchanged. *)
Theorem removeZeroRotations_idempotent (c : Circuit) :
  exists c',
    removeZeroRotations c = OK c' /\ removeZeroRotations c' = OK c'.
Proof.
  exists (set_data c (List.filter kept (data c))).
  rewrite !removeZeroRotations_filter. split; [reflexivity|].
  cbn [data set_data]. unfold set_data. cbn. now rewrite filter_kept_idem.
Qed.

(** X6. [removeZeroRotations] works entry by entry: on a concatenation it
    returns the concatenation of what it returns on the two parts. *)
Theorem removeZeroRotations_app (c : Circuit) (d1 d2 : list Instr) :
  exists c1 c2,
    removeZeroRotations (set_data c d1) = OK c1 /\
    removeZeroRotations (set_data c d2) = OK c2 /\
    removeZeroRotations (set_data c (d1 ++ d2))
    = OK (set_data c (data c1 ++ data c2)).
Proof.
  exists (set_data c (List.filter kept d1)), (set_data c (List.filter kept d2)).
  rewrite !removeZeroRotations_filter. cbn [data set_data]. unfold set_data. cbn.
  repeat split. now rewrite List.filter_app.
Qed.

(** ** More on [combineRotations] *)

Lemma quiet_tail (a : string) (w : list string) : quiet (a :: w) = true -> quiet w = true.
Proof.
  destruct w as [|b r]; [reflexivity|]. cbn [quiet]. intros H.
  now apply andb_true_iff in H as [_ H].
Qed.

Lemma get_app_second {A : Type} (pre rest : list A) (x y : A) :
  Py.get (pre ++ x :: y :: rest) (Z.of_nat (length pre) + 1) = OK y.
Proof.
  replace (pre ++ x :: y :: rest) with ((pre ++ [x]) ++ y :: rest)
    by now rewrite <- app_assoc.
  replace (Z.of_nat (length pre) + 1) with (Z.of_nat (length (pre ++ [x])))
    by (rewrite length_app; cbn; lia).
  apply get_app_length.
Qed.

(** The scan of a quiet wire changes neither the sequence nor the marks. *)
Lemma cr_quiet_scan (rest pre : list string) (fuel : nat) (d : list Instr)
    (pops : list Z) :
  (length rest <= fuel)%nat ->
  quiet rest = true ->
  exists s,
    while cr_cond cr_body fuel
      (mkCr d pops (pre ++ rest) (Z.of_nat (length pre))
         (Z.of_nat (length (pre ++ rest)))) = OK s /\
    cr_data s = d /\ cr_pops s = pops.
Proof.
  revert pre fuel. induction rest as [|a rest IH]; intros pre fuel Hfuel Hq.
  - eexists. split.
    { apply while_exit. unfold cr_cond. cbn. apply Z.ltb_ge.
      rewrite length_app. cbn. lia. }
    split; reflexivity.
  - destruct rest as [|b rest].
    + eexists. split.
      { apply while_exit. unfold cr_cond. cbn. apply Z.ltb_ge.
        rewrite length_app. cbn. lia. }
      split; reflexivity.
    + destruct fuel as [|fuel]; [cbn in Hfuel; lia|].
      rewrite while_unfold
        by (unfold cr_cond; cbn; apply Z.ltb_lt; rewrite length_app; cbn; lia).
      cbn [quiet] in Hq. apply andb_true_iff in Hq as [Hab Hq].
      apply negb_true_iff in Hab.
      rewrite (cr_step_skip _ _ _ _ _ a b);
        [|apply get_app_length|apply get_app_second|exact Hab].
      cbn [bind].
      destruct (IH (pre ++ [a]) fuel) as (s & Hs & Hd & Hp);
        [cbn in Hfuel |- *; lia|exact Hq|].
      exists s. split; [|now split].
      rewrite <- Hs. f_equal. rewrite <- !app_assoc. cbn [app].
      f_equal. rewrite length_app. cbn. lia.
Qed.

Lemma combine_wires_quiet (wires : Wires) (d : list Instr) (pops : list Z) :
  forallb quiet wires = true -> combine_wires wires d pops = OK (d, pops).
Proof.
  induction wires as [|w wires IH]; [reflexivity|]. cbn [forallb combine_wires].
  intros H. apply andb_true_iff in H as [Hw H].
  destruct (cr_quiet_scan w [] (3 * length w) d pops) as (s & Hs & Hd & Hp);
    [lia|exact Hw|].
  cbn [app length] in Hs. change (Z.of_nat 0) with 0 in Hs.
  rewrite Hs. cbn [bind]. rewrite Hd, Hp. now apply IH.
Qed.

(** X11. When on no wire two neighbouring tags agree in their first two
    characters, [combineRotations] returns the circuit as it is. *)
Theorem combineRotations_quiet (c : Circuit) (wires : Wires) :
  forallb quiet wires = true -> combineRotations c wires = OK c.
Proof.
  intros H. unfold combineRotations. rewrite combine_wires_quiet by exact H.
  cbn. now destruct c.
Qed.

Lemma combineRotations_quiet_witness :
  combineRotations (mkCircuit 2 0 [rx 1 0; rz 1 0; cz 0 1])
    [[EmptyString; "rx0"; "rz1"; "cz2"]; [EmptyString; "cz2"]]%string
  = OK (mkCircuit 2 0 [rx 1 0; rz 1 0; cz 0 1]).
Proof. apply combineRotations_quiet. reflexivity. Defined.

(** ** Deleting the marked entries, largest index first *)

Lemma existsb_eqb_In (i : Z) (ks : list Z) :
  existsb (Z.eqb i) ks = true <-> In i ks.
Proof.
  rewrite existsb_exists. split.
  - intros (k & Hk & E). apply Z.eqb_eq in E. now subst.
  - intros H. exists i. split; [exact H|apply Z.eqb_refl].
Qed.

Lemma unmarked_ext (ks ks' : list Z) (d : list Instr) (i : Z) :
  (forall k, In k ks <-> In k ks') -> unmarked i ks d = unmarked i ks' d.
Proof.
  intros H. revert i. induction d as [|x d IH]; intros i; [reflexivity|].
  cbn [unmarked]. rewrite !IH.
  assert (E : existsb (Z.eqb i) ks = existsb (Z.eqb i) ks').
  { apply eq_true_iff_eq. rewrite !existsb_eqb_In. apply H. }
  now rewrite E.
Qed.

Lemma unmarked_below (ks : list Z) (d : list Instr) (i : Z) :
  Forall (fun k => k < i) ks -> unmarked i ks d = d.
Proof.
  revert i. induction d as [|x d IH]; intros i H; [reflexivity|].
  cbn [unmarked]. rewrite IH by (eapply Forall_impl; [exact H|cbn; intros; lia]).
  destruct (existsb (Z.eqb i) ks) eqn:E; [|reflexivity].
  apply existsb_eqb_In in E. rewrite Forall_forall in H.
  apply list_elem_of_In, H in E. lia.
Qed.

Lemma unmarked_delete (r : list Z) (d : list Instr) (i : Z) (j : nat) :
  Forall (fun k => k < i + Z.of_nat j) r ->
  (j < length d)%nat ->
  unmarked i r (delete j d) = unmarked i ((i + Z.of_nat j) :: r) d.
Proof.
  revert i j. induction d as [|x d IH]; intros i j Hr Hj; [cbn in Hj; lia|].
  destruct j as [|j].
  - cbn [delete unmarked existsb]. replace (i + Z.of_nat 0) with i in * by lia.
    rewrite Z.eqb_refl. cbn [orb].
    rewrite !unmarked_below; [reflexivity| |exact Hr].
    constructor; [lia|]. eapply Forall_impl; [exact Hr|cbn; intros; lia].
  - change (delete (S j) (x :: d)) with (x :: delete j d).
    cbn [unmarked existsb].
    replace (i =? i + Z.of_nat (S j)) with false by (symmetry; apply Z.eqb_neq; lia).
    cbn [orb].
    rewrite (IH (i + 1) j); [|eapply Forall_impl; [exact Hr|cbn; intros; lia]
                              |cbn in Hj; lia].
    now replace (i + 1 + Z.of_nat j) with (i + Z.of_nat (S j)) by lia.
Qed.

Lemma pop_in_range (d : list Instr) (k : Z) :
  0 <= k < Z.of_nat (length d) -> Py.pop d k = OK (delete (Z.to_nat k) d).
Proof.
  intros H. unfold Py.pop, Py.del, Py.index.
  rewrite (proj2 (Z.leb_le _ _)) by lia. rewrite (proj2 (Z.ltb_lt _ _)) by lia.
  reflexivity.
Qed.

Lemma pop_all_descending (l : list Z) (d : list Instr) :
  descending l ->
  Forall (fun k => 0 <= k < Z.of_nat (length d)) l ->
  pop_all d l = OK (unmarked 0 l d).
Proof.
  revert d. induction l as [|k r IH]; intros d Hdesc Hrange.
  - cbn. now rewrite unmarked_below.
  - destruct Hdesc as [Hlt Hdesc]. apply Forall_cons in Hrange as [Hk Hrange].
    cbn [pop_all]. rewrite pop_in_range by exact Hk. cbn [bind].
    rewrite IH; [|exact Hdesc|].
    + rewrite (unmarked_delete r d 0 (Z.to_nat k)); [|
        eapply Forall_impl; [exact Hlt|cbn; intros; lia]|lia].
      now replace (0 + Z.of_nat (Z.to_nat k)) with k by lia.
    + rewrite length_delete by (apply lookup_lt_is_Some_2; lia).
      rewrite Forall_forall in Hlt, Hrange |- *. intros x Hx.
      specialize (Hlt x Hx). specialize (Hrange x Hx). cbn in *. lia.
Qed.

Lemma insert_desc_In (x y : Z) (l : list Z) :
  In y (Py.insert_desc x l) <-> y = x \/ In y l.
Proof.
  induction l as [|z l IH]; cbn [Py.insert_desc].
  - cbn. intuition.
  - destruct (z <? x); cbn [In]; [intuition|]. rewrite IH. intuition.
Qed.

Lemma insert_desc_descending (x : Z) (l : list Z) :
  ~ In x l -> descending l -> descending (Py.insert_desc x l).
Proof.
  induction l as [|z l IH]; intros Hx Hl; cbn [Py.insert_desc].
  - cbn. auto.
  - destruct Hl as [Hlt Hl]. destruct (z <? x) eqn:E.
    + apply Z.ltb_lt in E. split; [|now split]. constructor; [exact E|].
      eapply Forall_impl; [exact Hlt|cbn; intros; lia].
    + apply Z.ltb_ge in E. assert (x <> z) by (intros ->; apply Hx; now left).
      split.
      * rewrite Forall_forall in Hlt |- *. intros y Hy.
        apply list_elem_of_In, insert_desc_In in Hy as [->|Hy]; [lia|].
        apply Hlt. now apply list_elem_of_In.
      * apply IH; [|exact Hl]. intros Hin. apply Hx. now right.
Qed.

Lemma sorted_desc_In (ks : list Z) (k : Z) : In k (Py.sorted_desc ks) <-> In k ks.
Proof.
  unfold Py.sorted_desc. induction ks as [|x ks IH]; [reflexivity|].
  cbn [foldr]. rewrite insert_desc_In, IH. cbn. intuition.
Qed.

Lemma sorted_desc_descending (ks : list Z) :
  NoDup ks -> descending (Py.sorted_desc ks).
Proof.
  unfold Py.sorted_desc. induction 1 as [|x ks Hx _ IH]; [exact I|].
  cbn [foldr]. apply insert_desc_descending; [|exact IH].
  intros Hin. apply Hx. apply list_elem_of_In.
  now apply (sorted_desc_In ks x).
Qed.

(** X14. The deferred deletion at the end of [combineRotations]: when the
    marked indices are valid positions of the sequence and no index is
    marked twice, popping them in descending order deletes exactly the
    entries at the marked positions, whatever the order in which they were
    marked; the other entries stay, in their order. *)
Theorem pop_all_sorted_desc (d : list Instr) (indicesToPop : list Z) :
  NoDup indicesToPop ->
  Forall (fun k => 0 <= k < Z.of_nat (length d)) indicesToPop ->
  pop_all d (Py.sorted_desc indicesToPop) = OK (unmarked 0 indicesToPop d).
Proof.
  intros Hnd Hrange.
  rewrite pop_all_descending.
  - f_equal. apply unmarked_ext. intros k. apply sorted_desc_In.
  - now apply sorted_desc_descending.
  - rewrite Forall_forall in Hrange |- *. intros k Hk. apply Hrange.
    apply list_elem_of_In, sorted_desc_In. now apply list_elem_of_In.
Qed.

Lemma pop_all_sorted_desc_witness :
  pop_all [rx 1 0; rx 2 0; rz 3 0; rx 4 0] (Py.sorted_desc [0; 3; 1])
  = OK [rz 3 0].
Proof.
  apply (pop_all_sorted_desc [rx 1 0; rx 2 0; rz 3 0; rx 4 0] [0; 3; 1]).
  - apply (bool_decide_unpack _). reflexivity.
  - repeat constructor; cbn; lia.
Defined.

(** ** The three shapes of a step of [removeDoubleCZ] *)

Lemma get_two {A : Type} (l : list A) (a b : A) :
  Py.get l 0 = OK a -> Py.get l 1 = OK b -> exists r, l = a :: b :: r.
Proof.
  destruct l as [|x [|y r]]; try discriminate.
  rewrite get_head, get_second. intros [= <-] [= <-]. now exists r.
Qed.

Lemma cz_body_cases (d : list Instr) (wires : Wires) (i n : Z) (s' : cz_state) :
  cz_body (mkCz d wires i n) = OK s' ->
  (exists q w t,
      wires !! q = Some w /\
      s' = mkCz d (<[q := w ++ [t]]> wires) (i + 1) n) \/
  (exists a b wa wb t,
      wires !! a = Some wa /\
      (<[a := wa ++ [t]]> wires) !! b = Some wb /\
      s' = mkCz d (<[b := wb ++ [t]]> (<[a := wa ++ [t]]> wires)) (i + 1) n) \/
  (exists item a b qs wa wa' wb wb' ta tb d1 d2 k,
      Py.get d i = OK item /\ qargs item = a :: b :: qs /\
      wires !! a = Some wa /\ Py.get wa (-1) = OK ta /\
      String.eqb (Py.prefix2 ta) "cz" = true /\
      top wires b = OK tb /\ String.eqb (Py.prefix2 tb) "cz" = true /\
      Py.pop d i = OK d1 /\ Py.pop d1 k = OK d2 /\
      Py.pop_last wa = OK wa' /\
      (<[a := wa']> wires) !! b = Some wb /\ Py.pop_last wb = OK wb' /\
      s' = mkCz d2 (<[b := wb']> (<[a := wa']> wires)) (i - 2 + 1) (n - 2)).
Proof.
  unfold cz_body. intros H.
  destruct (Py.get d i) as [item|] eqn:Hd; cbn [bind] in H; [|discriminate].
  destruct (String.eqb (name (gate item)) "cz") eqn:Hn.
  - destruct (Py.get (qargs item) 0) as [a|] eqn:Ha0; cbn [bind] in H; [|discriminate].
    destruct (Py.get (qargs item) 1) as [b|] eqn:Hb1; cbn [bind] in H; [|discriminate].
    destruct (get_two _ _ _ Ha0 Hb1) as (qs & Hq).
    assert (Hpush : forall t,
               (wires1 <- push wires a t ;; wires2 <- push wires1 b t ;;
                OK (mkCz d wires2 (i + 1) n)) = OK s' ->
               exists wa wb,
                 wires !! a = Some wa /\
                 (<[a := wa ++ [t]]> wires) !! b = Some wb /\
                 s' = mkCz d (<[b := wb ++ [t]]> (<[a := wa ++ [t]]> wires)) (i + 1) n).
    { intros t Ht. unfold push, Py.get_nat in Ht.
      destruct (wires !! a) as [wa|] eqn:Hwa; cbn [of_option bind] in Ht; [|discriminate].
      destruct (<[a := wa ++ [t]]> wires !! b) as [wb|] eqn:Hwb;
        cbn [of_option bind] in Ht; [|discriminate].
      injection Ht as <-. now exists wa, wb. }
    unfold top_is_cz in H.
    destruct (top wires a) as [ta|] eqn:Hta; cbn [bind] in H; [|discriminate].
    destruct (String.eqb (Py.prefix2 ta) "cz") eqn:Hpa.
    + destruct (top wires b) as [tb|] eqn:Htb; cbn [bind] in H; [|discriminate].
      destruct (String.eqb (Py.prefix2 tb) "cz") eqn:Hpb; cbn [andb] in H.
      * right; right.
        destruct (Py.pop d i) as [d1|] eqn:Hp1; cbn [bind] in H; [|discriminate].
        destruct (Py.int (Py.suffix2 ta)) as [k|]; cbn [bind] in H; [|discriminate].
        destruct (Py.pop d1 k) as [d2|] eqn:Hp2; cbn [bind] in H; [|discriminate].
        unfold drop_top, Py.get_nat in H. unfold top, Py.get_nat in Hta.
        destruct (wires !! a) as [wa|] eqn:Hwa; cbn [of_option bind] in H, Hta; [|discriminate].
        destruct (Py.pop_last wa) as [wa'|] eqn:Hpa'; cbn [bind] in H; [|discriminate].
        destruct (<[a := wa']> wires !! b) as [wb|] eqn:Hwb;
          cbn [of_option bind] in H; [|discriminate].
        destruct (Py.pop_last wb) as [wb'|] eqn:Hpb'; cbn [bind] in H; [|discriminate].
        injection H as <-.
        exists item, a, b, qs, wa, wa', wb, wb', ta, tb, d1, d2, k.
        repeat split; assumption || reflexivity.
      * right; left. destruct (Hpush _ H) as (wa & wb & H1 & H2 & H3).
        now exists a, b, wa, wb, (String.append "cz" (Py.str i)).
    + cbn [bind andb] in H. right; left.
      destruct (Hpush _ H) as (wa & wb & H1 & H2 & H3).
      now exists a, b, wa, wb, (String.append "cz" (Py.str i)).
  - left. destruct (Py.get (qargs item) 0) as [q|]; cbn [bind] in H; [|discriminate].
    unfold push, Py.get_nat in H.
    destruct (wires !! q) as [w|] eqn:Hw; cbn [of_option bind] in H; [|discriminate].
    injection H as <-. now exists q, w, (String.append (name (gate item)) (Py.str i)).
Qed.

(** ** What [removeDoubleCZ] keeps *)

Lemma pop_last_sentinel (w w' : list string) (t : string) :
  has_sentinel w ->
  Py.get w (-1) = OK t ->
  String.eqb (Py.prefix2 t) "cz" = true ->
  Py.pop_last w = OK w' ->
  has_sentinel w'.
Proof.
  unfold has_sentinel. destruct w as [|x [|y r]]; try discriminate.
  - intros [= ->] [= <-]. discriminate.
  - intros [= ->] _ _. unfold Py.pop_last, Py.del, Py.index. cbn [length].
    rewrite (proj2 (Z.leb_gt _ _)) by lia. cbn [andb].
    rewrite (proj2 (Z.leb_le _ _)) by lia. cbn [andb Z.ltb Z.compare bind].
    replace (Z.to_nat (Z.of_nat (S (S (length r))) + -1)) with (S (length r)) by lia.
    now intros [= <-].
Qed.

Lemma Forall_del {A : Type} (P : A -> Prop) (l l' : list A) (k : Z) :
  Py.del l k = OK l' -> Forall P l -> Forall P l'.
Proof.
  unfold Py.del. destruct (Py.index l k); cbn [bind]; [|discriminate].
  intros [= <-]. apply Forall_delete.
Qed.

Lemma cz_body_keeps (nq : nat) (s s' : cz_state) :
  cz_kept nq s -> cz_body s = OK s' -> cz_kept nq s'.
Proof.
  destruct s as [d wires i n]. intros (Hlen & Hsen & Hdist) H.
  apply cz_body_cases in H as
    [(q & w & t & Hw & ->)
    |[(a & b & wa & wb & t & Hwa & Hwb & ->)
     |(item & a & b & qs & wa & wa' & wb & wb' & ta & tb & d1 & d2 & k &
       Hd & Hq & Hwa & Hta & Hpa & Htb & Hpb & Hp1 & Hp2 & Hpa' & Hwb & Hpb' & ->)]];
    unfold cz_kept; cbn [cz_wires cz_data] in *.
  - rewrite length_insert. repeat split; try assumption.
    apply Forall_insert; [exact Hsen|].
    eapply Forall_lookup_1 in Hsen; [|exact Hw].
    unfold has_sentinel in *. now destruct w.
  - rewrite !length_insert. repeat split; try assumption.
    assert (Hsen1 : Forall has_sentinel (<[a := wa ++ [t]]> wires)).
    { apply Forall_insert; [exact Hsen|].
      eapply Forall_lookup_1 in Hsen; [|exact Hwa].
      unfold has_sentinel in *. now destruct wa. }
    apply Forall_insert; [exact Hsen1|].
    eapply Forall_lookup_1 in Hsen1; [|exact Hwb].
    unfold has_sentinel in *. now destruct wb.
  - rewrite !length_insert. split; [exact Hlen|]. split.
    + assert (Hab : a <> b).
      { apply get_In in Hd. rewrite Forall_forall in Hdist.
        apply list_elem_of_In, Hdist in Hd. unfold distinct_qubits in Hd.
        now rewrite Hq in Hd. }
      rewrite list_lookup_insert_ne in Hwb by exact Hab.
      unfold top, Py.get_nat in Htb. rewrite Hwb in Htb. cbn [of_option bind] in Htb.
      apply Forall_insert; [apply Forall_insert; [exact Hsen|]|].
      * eapply pop_last_sentinel; [|exact Hta|exact Hpa|exact Hpa'].
        eapply Forall_lookup_1; [exact Hsen|exact Hwa].
      * eapply pop_last_sentinel; [|exact Htb|exact Hpb|exact Hpb'].
        eapply Forall_lookup_1; [exact Hsen|exact Hwb].
    + eapply Forall_del; [exact Hp2|]. eapply Forall_del; [exact Hp1|exact Hdist].
Qed.

(** X7. For a circuit whose instructions never name the same qubit twice,
    the wire history that [removeDoubleCZ] returns has one stack for each
    qubit of the circuit, and every stack still has the sentinel at its
    bottom: a cancellation never pops it. *)
Theorem removeDoubleCZ_wires_shape (c c' : Circuit) (wires : Wires) :
  Forall distinct_qubits (data c) ->
  removeDoubleCZ c = OK (c', wires) ->
  length wires = num_qubits c /\ Forall has_sentinel wires.
Proof.
  intros Hdist H. unfold removeDoubleCZ in H. inv_bind H. injection H as <- <-.
  apply (while_inv _ _ (cz_kept (num_qubits c))) in E.
  - destruct E as (H1 & H2 & _). now split.
  - intros s s' _ Hs Hb. eapply cz_body_keeps; eassumption.
  - unfold cz_kept. cbn [cz_wires cz_data]. rewrite length_replicate.
    repeat split; [|exact Hdist]. apply Forall_replicate. reflexivity.
Qed.

Lemma removeDoubleCZ_wires_shape_witness :
  length [[EmptyString; "cz0"]; [EmptyString]; [EmptyString];
          [EmptyString; "cz1"]]%string = 4%nat /\
  Forall has_sentinel [[EmptyString; "cz0"]; [EmptyString]; [EmptyString];
                       [EmptyString; "cz1"]]%string.
Proof.
  apply (removeDoubleCZ_wires_shape (mkCircuit 4 0 [cz 0 1; cz 2 3; cz 1 2])
           (mkCircuit 4 0 [cz 2 3])).
  - repeat constructor; cbn; lia.
  - reflexivity.
Defined.

(** X9. [removeDoubleCZ] deletes instructions two at a time: the sequence
    it returns is shorter than its input by an even number of entries. *)
Theorem removeDoubleCZ_even (c c' : Circuit) (wires : Wires) :
  removeDoubleCZ c = OK (c', wires) ->
  exists pairs : nat, length (data c) = (length (data c') + 2 * pairs)%nat.
Proof.
  intros H. unfold removeDoubleCZ in H. inv_bind H. injection H as <- <-.
  cbn [data set_data].
  apply (while_inv _ _ (fun s => exists pairs : nat,
                            length (data c) = (length (cz_data s) + 2 * pairs)%nat)) in E.
  - exact E.
  - intros [d w i n] s' _ (pairs & Hp) Hb.
    apply cz_body_cases in Hb as
      [(? & ? & ? & _ & ->)
      |[(? & ? & ? & ? & ? & _ & _ & ->)
       |(? & ? & ? & ? & ? & ? & ? & ? & ? & ? & d1 & d2 & k &
         _ & _ & _ & _ & _ & _ & _ & Hp1 & Hp2 & _ & _ & _ & ->)]];
      cbn [cz_data] in *.
    + now exists pairs.
    + now exists pairs.
    + unfold Py.pop in *. apply length_del in Hp1, Hp2.
      exists (S pairs). lia.
  - exists 0%nat. cbn. lia.
Qed.

Lemma removeDoubleCZ_even_witness :
  exists pairs : nat,
    length [cz 0 1; cz 2 3; cz 1 2] = (length [cz 2 3] + 2 * pairs)%nat.
Proof.
  apply (removeDoubleCZ_even (mkCircuit 4 0 [cz 0 1; cz 2 3; cz 1 2])
           (mkCircuit 4 0 [cz 2 3])
           [[EmptyString; "cz0"]; [EmptyString]; [EmptyString];
            [EmptyString; "cz1"]]%string).
  reflexivity.
Defined.

(** ** [removeDoubleCZ] on gates that are no cz *)

Lemma tags_from_app (i : Z) (q : nat) (d1 d2 : list Instr) :
  tags_from i q (d1 ++ d2)
  = tags_from i q d1 ++ tags_from (i + Z.of_nat (length d1)) q d2.
Proof.
  revert i. induction d1 as [|x d1 IH]; intros i.
  - cbn [app tags_from length]. change (Z.of_nat 0) with 0.
    now rewrite Z.add_0_r.
  - cbn [app tags_from length]. rewrite IH, <- app_assoc.
    now replace (i + 1 + Z.of_nat (length d1)) with (i + Z.of_nat (S (length d1))) by lia.
Qed.

Lemma history_lookup (nq q : nat) (d : list Instr) :
  (q < nq)%nat -> history nq d !! q = Some (EmptyString :: tags_from 0 q d).
Proof.
  intros Hq. unfold history. rewrite list_lookup_fmap.
  now rewrite lookup_seq_lt by exact Hq.
Qed.

Lemma history_nil (nq : nat) : history nq [] = replicate nq [EmptyString].
Proof.
  unfold history. cbn [tags_from]. generalize 0%nat.
  induction nq as [|nq IH]; intros k; [reflexivity|].
  cbn [seq map replicate]. now rewrite IH.
Qed.

Lemma history_snoc (nq q : nat) (qs : list nat) (pre : list Instr) (x : Instr) :
  qargs x = q :: qs ->
  <[q := (EmptyString :: tags_from 0 q pre)
         ++ [String.append (name (gate x)) (Py.str (Z.of_nat (length pre)))]]>
    (history nq pre)
  = history nq (pre ++ [x]).
Proof.
  intros Hq. apply list_eq. intros j.
  destruct (decide (j < nq)%nat) as [Hj|Hj].
  - rewrite (history_lookup nq j (pre ++ [x])) by exact Hj.
    rewrite tags_from_app. cbn [tags_from]. unfold first_qubit_is. rewrite Hq.
    destruct (decide (q = j)) as [->|Hne].
    + rewrite list_lookup_insert_eq by (unfold history; rewrite length_map, length_seq; lia).
      rewrite Nat.eqb_refl. now rewrite app_nil_r.
    + rewrite list_lookup_insert_ne by exact Hne.
      rewrite history_lookup by exact Hj.
      rewrite (proj2 (Nat.eqb_neq q j)) by exact Hne. cbn [app].
      now rewrite app_nil_r.
  - rewrite !lookup_ge_None_2; [reflexivity| |];
      rewrite ?length_insert; unfold history; rewrite length_map, length_seq; lia.
Qed.

Lemma plain_inv (nq : nat) (x : Instr) :
  plain nq x = true ->
  String.eqb (name (gate x)) "cz" = false /\
  exists q qs, qargs x = q :: qs /\ (q < nq)%nat.
Proof.
  unfold plain. intros H. apply andb_true_iff in H as [Hn Hq].
  apply negb_true_iff in Hn. split; [exact Hn|].
  destruct (qargs x) as [|q qs]; [discriminate|].
  exists q, qs. split; [reflexivity|]. now apply Nat.ltb_lt.
Qed.

(** Across gates that are no cz the scan only pushes tags. *)
Lemma cz_plain_steps (nq : nat) (mid pre rest : list Instr) (fuel : nat) :
  forallb (plain nq) mid = true ->
  while cz_cond cz_body (length mid + fuel) (cz_at nq pre (mid ++ rest))
  = while cz_cond cz_body fuel (cz_at nq (pre ++ mid) rest).
Proof.
  revert pre. induction mid as [|x mid IH]; intros pre Hmid.
  - cbn [length app Nat.add]. now rewrite app_nil_r.
  - cbn [forallb] in Hmid. apply andb_true_iff in Hmid as [Hx Hmid].
    apply plain_inv in Hx as (Hn & q & qs & Hq & Hlt).
    cbn [length Nat.add app]. unfold cz_at at 1.
    rewrite while_unfold
      by (unfold cz_cond; cbn; apply Z.ltb_lt; rewrite length_app; cbn; lia).
    rewrite (cz_step_other _ _ _ _ x q qs (EmptyString :: tags_from 0 q pre));
      [|apply get_app_length|exact Hn|exact Hq|now apply history_lookup].
    cbn [bind]. rewrite (history_snoc nq q qs) by exact Hq.
    specialize (IH (pre ++ [x]) Hmid). unfold cz_at in IH |- *.
    rewrite <- !app_assoc in IH. cbn [app] in IH.
    rewrite length_app in IH. cbn [length] in IH.
    replace (Z.of_nat (length pre + 1)) with (Z.of_nat (length pre) + 1) in IH by lia.
    rewrite IH. now rewrite <- app_assoc.
Qed.

(** The whole scan of a circuit without cz. *)
Lemma cz_plain_run (nq : nat) (d : list Instr) :
  forallb (plain nq) d = true ->
  while cz_cond cz_body (length d)
    (mkCz d (replicate nq [EmptyString]) 0 (Z.of_nat (length d)))
  = OK (mkCz d (history nq d) (Z.of_nat (length d)) (Z.of_nat (length d))).
Proof.
  intros H.
  pose proof (cz_plain_steps nq d [] [] 0 H) as Hs.
  unfold cz_at in Hs. rewrite history_nil, !app_nil_r, Nat.add_0_r in Hs.
  cbn [app length] in Hs. change (Z.of_nat 0) with 0 in Hs.
  rewrite Hs. apply while_exit. unfold cz_cond; cbn. apply Z.ltb_ge. lia.
Qed.

(** X8. On a circuit without cz, each gate having a first qubit that is a
    qubit of the circuit, [removeDoubleCZ] returns the circuit as it is, and
    the stack of every wire holds, above the sentinel, the tags of the gates
    whose first qubit it is, in program order, each made of the name of the
    gate and its position in the sequence. *)
Theorem removeDoubleCZ_plain (c : Circuit) :
  forallb (plain (num_qubits c)) (data c) = true ->
  removeDoubleCZ c = OK (c, history (num_qubits c) (data c)).
Proof.
  intros H. unfold removeDoubleCZ. cbn zeta.
  rewrite cz_plain_run by exact H.
  cbn [bind cz_data cz_wires]. f_equal. f_equal.
  unfold set_data. now destruct c.
Qed.

Lemma removeDoubleCZ_plain_witness :
  removeDoubleCZ (mkCircuit 2 0 [rx 1 0; rz 2 1; rx 3 0])
  = OK (mkCircuit 2 0 [rx 1 0; rz 2 1; rx 3 0],
        [[EmptyString; "rx0"; "rx2"]; [EmptyString; "rz1"]]%string).
Proof.
  apply (removeDoubleCZ_plain (mkCircuit 2 0 [rx 1 0; rz 2 1; rx 3 0])).
  reflexivity.
Defined.

(** X20. A gate without qubits, or whose first qubit is not a qubit of the
    circuit, coming after gates that are no cz: [removeDoubleCZ] raises
    [IndexError], whatever follows. *)
Theorem removeDoubleCZ_bad_qubit (nq ncl : nat) (pre rest : list Instr)
    (item : Instr) :
  forallb (plain nq) pre = true ->
  String.eqb (name (gate item)) "cz" = false ->
  match qargs item with
  | q :: _ => (nq <= q)%nat
  | [] => True
  end ->
  removeDoubleCZ (mkCircuit nq ncl (pre ++ item :: rest)) = Error IndexError.
Proof.
  intros Hpre Hn Hq. unfold removeDoubleCZ. cbn [data num_qubits].
  pose proof (cz_plain_steps nq pre [] (item :: rest) (S (length rest)) Hpre) as Hs.
  unfold cz_at in Hs. rewrite history_nil in Hs.
  cbn [app length] in Hs. change (Z.of_nat 0) with 0 in Hs.
  rewrite length_app. cbn [length]. rewrite length_app in Hs. cbn [length] in Hs.
  rewrite Hs.
  rewrite while_unfold
    by (unfold cz_cond; cbn; apply Z.ltb_lt; lia).
  unfold cz_body. rewrite get_app_length. cbn [bind]. rewrite Hn.
  destruct (qargs item) as [|q qs]; [reflexivity|].
  rewrite get_head. cbn [bind]. unfold push, Py.get_nat.
  rewrite lookup_ge_None_2; [reflexivity|].
  unfold history. rewrite length_map, length_seq. exact Hq.
Qed.

Lemma removeDoubleCZ_bad_qubit_witness :
  removeDoubleCZ (mkCircuit 2 0 ([rx 1 0] ++ rz 2 2 :: [rx 3 1])) = Error IndexError.
Proof.
  apply (removeDoubleCZ_bad_qubit 2 0 [rx 1 0] [rx 3 1] (rz 2 2)).
  - reflexivity.
  - reflexivity.
  - cbn. lia.
Defined.

(** ** A run of equal cz *)

Lemma pop_head {A : Type} (x : A) (l : list A) : Py.pop (x :: l) 0 = OK l.
Proof.
  unfold Py.pop, Py.del, Py.index. cbn [length].
  rewrite (proj2 (Z.ltb_lt _ _)) by lia. reflexivity.
Qed.

Lemma pop_second {A : Type} (x y : A) (l : list A) :
  Py.pop (x :: y :: l) 1 = OK (x :: l).
Proof.
  unfold Py.pop, Py.del, Py.index. cbn [length].
  rewrite (proj2 (Z.ltb_lt _ _)) by lia. reflexivity.
Qed.

Lemma cz_chain_scan (nq a b : nat) :
  (a < nq)%nat -> (b < nq)%nat -> a <> b ->
  forall m fuel, (m <= fuel)%nat ->
    while cz_cond cz_body fuel
      (mkCz (replicate m (cz a b)) (replicate nq [EmptyString]) 0 (Z.of_nat m))
    = OK (chain_end nq a b m).
Proof.
  intros Ha Hb Hab.
  set (P := fun m : nat => forall fuel, (m <= fuel)%nat ->
    while cz_cond cz_body fuel
      (mkCz (replicate m (cz a b)) (replicate nq [EmptyString]) 0 (Z.of_nat m))
    = OK (chain_end nq a b m)).
  assert (H0 : P 0%nat).
  { intros fuel _. now rewrite while_exit by reflexivity. }
  assert (H1 : P 1%nat).
  { intros fuel Hfuel. destruct fuel as [|fuel]; [lia|]. cbn [replicate].
    cz_push (cz a b) a b (@nil string) EmptyString (@nil string) EmptyString.
    now rewrite while_exit by reflexivity. }
  assert (H2 : forall m, P m -> P (S (S m))); [|
    assert (Hall : forall m, P m /\ P (S m))
      by (induction m as [|m [IHm IHSm]]; split; auto);
    intros m; apply Hall].
  intros m IH fuel Hfuel.
  destruct fuel as [|[|fuel]]; try lia. cbn [replicate].
  rewrite while_unfold
    by (unfold cz_cond; cbn; apply Z.ltb_lt; lia).
  erewrite (cz_step_push _ _ _ _ (cz a b) a b [] [] [] _ EmptyString EmptyString);
    [|apply get_head|reflexivity|reflexivity|wires_lookup|now left|wires_lookup].
  cbn [bind].
  rewrite while_unfold
    by (unfold cz_cond; cbn; apply Z.ltb_lt; lia).
  erewrite (cz_step_cancel _ _ _ _ _ _ 0 (cz a b) a b []
              [EmptyString] [EmptyString] [EmptyString] "cz0" "cz0" "cz0");
    [|apply get_second|reflexivity|reflexivity|wires_lookup|reflexivity
     |wires_lookup|reflexivity|apply pop_second|reflexivity|apply pop_head
     |wires_lookup].
  cbn [bind].
  replace (Z.of_nat (S (S m)) - 2) with (Z.of_nat m) by lia.
  change (0 + 1 - 2 + 1) with 0.
  match goal with
  | |- while _ _ _ (mkCz _ ?w _ _) = _ =>
      replace w with (replicate nq [EmptyString]) by (symmetry; wires_eq)
  end.
  rewrite IH by lia. unfold chain_end.
  now rewrite Nat.odd_succ_succ.
Qed.

Lemma filter_kept_cz (a b m : nat) :
  List.filter kept (replicate m (cz a b)) = replicate m (cz a b).
Proof. induction m as [|m IH]; [reflexivity|]. cbn. now rewrite IH. Qed.

Lemma forallb_quiet_insert (wires : Wires) (q : nat) (w : list string) :
  forallb quiet wires = true -> quiet w = true ->
  forallb quiet (<[q := w]> wires) = true.
Proof.
  revert q. induction wires as [|w0 wires IH]; intros q H Hw; [exact H|].
  cbn [forallb] in H. apply andb_true_iff in H as [H0 H].
  destruct q as [|q]; cbn; apply andb_true_iff; split; auto.
Qed.

Lemma forallb_quiet_idle (nq : nat) :
  forallb quiet (replicate nq [EmptyString]) = true.
Proof. induction nq as [|nq IH]; [reflexivity|exact IH]. Qed.

(** X10. A run of [m] cz on the same two qubits, and nothing else: the cz
    cancel two by two, and [simplify] returns no instruction when [m] is
    even and a single cz when [m] is odd. *)
Theorem simplify_cz_run (nq ncl a b m : nat) :
  (a < nq)%nat -> (b < nq)%nat -> a <> b ->
  simplify (mkCircuit nq ncl (replicate m (cz a b)))
  = OK (mkCircuit nq ncl (if Nat.odd m then [cz a b] else [])).
Proof.
  intros Ha Hb Hab. unfold simplify. rewrite removeZeroRotations_filter.
  cbn [bind data]. rewrite filter_kept_cz.
  unfold removeDoubleCZ. cbn [set_data data num_qubits num_clbits].
  rewrite length_replicate.
  rewrite (cz_chain_scan nq a b Ha Hb Hab m m) by lia.
  cbn [bind fst snd]. unfold chain_end, combineRotations.
  destruct (Nat.odd m); cbn [cz_data cz_wires set_data data num_qubits num_clbits].
  - rewrite combine_wires_quiet; [reflexivity|].
    unfold after_one_cz.
    repeat (apply forallb_quiet_insert; [|reflexivity]).
    apply forallb_quiet_idle.
  - now rewrite combine_wires_idle.
Qed.

Lemma simplify_cz_run_witness :
  simplify (mkCircuit 5 5 (replicate 4 (cz 3 4))) = OK (mkCircuit 5 5 []).
Proof. apply (simplify_cz_run 5 5 3 4 4); lia. Defined.

(** ** Two pairs of cz that interleave *)

Lemma cz_step_cancel_raises (d d1 : list Instr) (wires : Wires) (i n k : Z)
    (item : Instr) (a b : nat) (qs : list nat)
    (wa wb : list string) (ta tb : string) (e : exn) :
  Py.get d i = OK item ->
  String.eqb (name (gate item)) "cz" = true ->
  qargs item = a :: b :: qs ->
  wires !! a = Some (wa ++ [ta]) ->
  String.eqb (Py.prefix2 ta) "cz" = true ->
  wires !! b = Some (wb ++ [tb]) ->
  String.eqb (Py.prefix2 tb) "cz" = true ->
  Py.pop d i = OK d1 ->
  Py.int (Py.suffix2 ta) = OK k ->
  Py.pop d1 k = Error e ->
  cz_body (mkCz d wires i n) = Error e.
Proof.
  intros Hd Hn Hq Ha Hta Hb Htb Hp1 Hk Hp2. unfold cz_body.
  rewrite Hd. cbn [bind]. rewrite Hn, Hq, get_head, get_second. cbn [bind].
  unfold top_is_cz. rewrite (top_lookup _ _ _ _ Ha). cbn [bind]. rewrite Hta.
  rewrite (top_lookup _ _ _ _ Hb). cbn [bind]. rewrite Htb. cbn [andb].
  rewrite Hp1. cbn [bind]. rewrite Hk. cbn [bind]. now rewrite Hp2.
Qed.

(** X16. Two cancelling pairs that interleave, cz(a,b), cz(c,d), cz(a,b),
    cz(c,d) on four different qubits: the first cancellation moves cz(c,d)
    to index 0 while its tags keep index 1, and at the second cancellation
    [removeDoubleCZ] pops index 1 twice and raises [IndexError]. *)
Theorem removeDoubleCZ_interleaved_raises (nq ncl a b c d : nat) :
  (a < nq)%nat -> (b < nq)%nat -> (c < nq)%nat -> (d < nq)%nat ->
  a <> b -> a <> c -> a <> d -> b <> c -> b <> d -> c <> d ->
  removeDoubleCZ (mkCircuit nq ncl [cz a b; cz c d; cz a b; cz c d])
  = Error IndexError.
Proof.
  intros Ha Hb Hc Hd Hab Hac Had Hbc Hbd Hcd.
  unfold removeDoubleCZ. cbn [data num_qubits length].
  cz_push (cz a b) a b (@nil string) EmptyString (@nil string) EmptyString.
  cz_push (cz c d) c d (@nil string) EmptyString (@nil string) EmptyString.
  cz_cancel (cz a b) a b [EmptyString] "cz0"%string
    [EmptyString] "cz0"%string [EmptyString] "cz0"%string.
  rewrite while_unfold by reflexivity.
  erewrite (cz_step_cancel_raises _ _ _ _ _ _ (cz c d) c d []
              [EmptyString] [EmptyString] "cz1" "cz1");
    [reflexivity|reflexivity|reflexivity|reflexivity|wires_lookup|reflexivity
    |wires_lookup|reflexivity|reflexivity|reflexivity|reflexivity].
Qed.

Lemma removeDoubleCZ_interleaved_raises_witness :
  removeDoubleCZ (mkCircuit 4 0 [cz 0 1; cz 2 3; cz 0 1; cz 2 3])
  = Error IndexError.
Proof. apply (removeDoubleCZ_interleaved_raises 4 0 0 1 2 3); lia. Defined.

(** ** Two rotations on one wire *)

Lemma removeDoubleCZ_two (nq ncl q : nat) (nm : string) (t1 t2 : float) :
  (q < nq)%nat ->
  String.eqb nm "cz" = false ->
  removeDoubleCZ (mkCircuit nq ncl [rot nm t1 q; rot nm t2 q])
  = OK (mkCircuit nq ncl [rot nm t1 q; rot nm t2 q],
        <[q := [EmptyString; String.append nm "0"; String.append nm "1"]]>
          (replicate nq [EmptyString])).
Proof.
  intros Hq Hnm. unfold removeDoubleCZ. cbn [data num_qubits length].
  cz_other (rot nm t1 q) q. cz_other (rot nm t2 q) q. cz_exit.
Qed.

Lemma simplify_two_start (nq ncl q : nat) (nm : string) (t1 t2 : float) :
  (q < nq)%nat ->
  nm = "rx"%string \/ nm = "rz"%string ->
  is_zero_rotation [t1] = false ->
  is_zero_rotation [t2] = false ->
  simplify (mkCircuit nq ncl [rot nm t1 q; rot nm t2 q])
  = (s <- while cr_cond cr_body 9
            (mkCr [rot nm t1 q; rot nm t2 q] []
               [EmptyString; String.append nm "0"; String.append nm "1"] 0 3) ;;
     d <- pop_all (cr_data s) (Py.sorted_desc (cr_pops s)) ;;
     OK (mkCircuit nq ncl d)).
Proof.
  intros Hq Hnm Hz1 Hz2. unfold simplify.
  rewrite removeZeroRotations_filter. cbn [bind data List.filter].
  unfold kept. cbn [rot params gate]. rewrite Hz1, Hz2. cbn [negb].
  change (set_data _ _) with (mkCircuit nq ncl [rot nm t1 q; rot nm t2 q]).
  rewrite removeDoubleCZ_two; [|exact Hq|destruct Hnm as [-> | ->]; reflexivity].
  cbn [bind fst snd]. unfold combineRotations.
  rewrite combine_wires_single by exact Hq. cbn [data length Nat.mul Nat.add].
  change (Z.of_nat 3) with 3.
  destruct (while _ _ _ _); reflexivity.
Qed.

(** X12. Two rx, or two rz, on one qubit and nothing else, neither angle
    being 0 or [2*PI]: when their binary64 sum does not round to a full
    turn at two decimals, [simplify] returns one rotation with that sum. *)
Theorem simplify_fuses_two (nq ncl q : nat) (nm : string) (t1 t2 : float) :
  (q < nq)%nat ->
  nm = "rx"%string \/ nm = "rz"%string ->
  is_zero_rotation [t1] = false ->
  is_zero_rotation [t2] = false ->
  is_full_turn (t1 + t2)%float = false ->
  simplify (mkCircuit nq ncl [rot nm t1 q; rot nm t2 q])
  = OK (mkCircuit nq ncl [rot nm (t1 + t2)%float q]).
Proof.
  intros Hq Hnm Hz1 Hz2 Hft. rewrite simplify_two_start by assumption.
  destruct Hnm as [-> | ->];
    do 2 cr_step; rewrite while_exit by reflexivity; reflexivity.
Qed.

Lemma simplify_fuses_two_witness :
  simplify (mkCircuit 3 0 [rz 1 2; rz 2 2]) = OK (mkCircuit 3 0 [rz 3 2]).
Proof.
  apply (simplify_fuses_two 3 0 2 "rz" 1 2);
    solve [lia | now right | reflexivity].
Defined.

(** X13. The same two rotations when their sum rounds to a full turn: the
    two tags leave the wire, the scan steps back to index -1 on a stack
    that holds the sentinel alone, compares the sentinel with itself and
    reads an index out of the empty string: [simplify] raises
    [ValueError]. *)
Theorem simplify_full_turn_pair_raises (nq ncl q : nat) (nm : string)
    (t1 t2 : float) :
  (q < nq)%nat ->
  nm = "rx"%string \/ nm = "rz"%string ->
  is_zero_rotation [t1] = false ->
  is_zero_rotation [t2] = false ->
  is_full_turn (t1 + t2)%float = true ->
  simplify (mkCircuit nq ncl [rot nm t1 q; rot nm t2 q]) = Error ValueError.
Proof.
  intros Hq Hnm Hz1 Hz2 Hft. rewrite simplify_two_start by assumption.
  destruct Hnm as [-> | ->];
    do 2 cr_step; rewrite while_unfold by reflexivity; reflexivity.
Qed.

Lemma simplify_full_turn_pair_raises_witness :
  simplify (mkCircuit 1 0 [rx PI 0; rx PI 0]) = Error ValueError.
Proof.
  apply (simplify_full_turn_pair_raises 1 0 0 "rx" PI PI);
    solve [lia | now left | vm_compute; reflexivity].
Defined.

(** ** Circuits that [simplify] leaves alone *)

Lemma filter_kept_all (d : list Instr) :
  forallb kept d = true -> List.filter kept d = d.
Proof.
  induction d as [|x d IH]; [reflexivity|]. cbn [forallb List.filter].
  intros H. apply andb_true_iff in H as [Hx H]. now rewrite Hx, IH.
Qed.

(** X21. A circuit without cz and without rotation of angle 0 or [2*PI],
    in which no two gates that follow each other on a wire have tags with
    the same first two characters: [simplify] returns it unchanged. *)
Theorem simplify_fixed (c : Circuit) :
  forallb kept (data c) = true ->
  forallb (plain (num_qubits c)) (data c) = true ->
  forallb quiet (history (num_qubits c) (data c)) = true ->
  simplify c = OK c.
Proof.
  intros Hk Hp Hq. unfold simplify. rewrite removeZeroRotations_filter.
  cbn [bind]. rewrite filter_kept_all by exact Hk.
  assert (Hc : set_data c (data c) = c) by now destruct c.
  rewrite Hc. unfold removeDoubleCZ. cbn zeta.
  rewrite cz_plain_run by exact Hp. cbn [bind fst snd cz_data cz_wires].
  unfold combineRotations. cbn [data set_data].
  rewrite combine_wires_quiet by exact Hq.
  cbn. now rewrite !Hc.
Qed.

Lemma simplify_fixed_witness :
  simplify (mkCircuit 2 0 [rz 1 0; rx 2 0; rz 3 0; rx 1 1])
  = OK (mkCircuit 2 0 [rz 1 0; rx 2 0; rz 3 0; rx 1 1]).
Proof.
  apply (simplify_fixed (mkCircuit 2 0 [rz 1 0; rx 2 0; rz 3 0; rx 1 1]));
    reflexivity.
Defined.

(** ** The width of the circuit *)

Lemma removeDoubleCZ_set_data (c c' : Circuit) (wires : Wires) :
  removeDoubleCZ c = OK (c', wires) -> c' = set_data c (data c').
Proof.
  unfold removeDoubleCZ. intros H. inv_bind H. now injection H as <- <-.
Qed.

Lemma combineRotations_set_data (c c' : Circuit) (wires : Wires) :
  combineRotations c wires = OK c' -> c' = set_data c (data c').
Proof.
  unfold combineRotations. intros H. inv_bind H. now injection H as <-.
Qed.

(** X15. A circuit that [simplify] returns has the qubits and the
    classical bits of the circuit it was given: only the sequence of
    instructions changes. *)
Theorem simplify_keeps_width (c c' : Circuit) :
  simplify c = OK c' ->
  num_qubits c' = num_qubits c /\ num_clbits c' = num_clbits c.
Proof.
  unfold simplify. rewrite removeZeroRotations_filter. cbn [bind].
  intros H. inv_bind H. destruct a as [c2 wires].
  apply removeDoubleCZ_set_data in E. apply combineRotations_set_data in H.
  cbn [fst snd] in H. rewrite H, E. now cbn.
Qed.

Lemma simplify_keeps_width_witness :
  num_qubits (mkCircuit 3 2 [rz 3 2]) = 3%nat /\
  num_clbits (mkCircuit 3 2 [rz 3 2]) = 2%nat.
Proof.
  apply (simplify_keeps_width (mkCircuit 3 2 [rz 1 2; rz 2 2])).
  vm_compute. reflexivity.
Defined.

(** ** The draft of [removeZeroRotations] *)

Lemma draft_scan (rest pre : list Instr) (fuel : nat) :
  (length rest <= fuel)%nat ->
  while rzr_cond Draft.rzr_body fuel
    (mkRzr (pre ++ rest) (Z.of_nat (length pre)) (Z.of_nat (length (pre ++ rest))))
  = OK (mkRzr (pre ++ List.filter Draft.kept rest)
          (Z.of_nat (length (pre ++ List.filter Draft.kept rest)))
          (Z.of_nat (length (pre ++ List.filter Draft.kept rest)))).
Proof.
  revert pre fuel. induction rest as [|x rest IH]; intros pre fuel Hfuel.
  - cbn [List.filter]. rewrite !app_nil_r. apply while_exit.
    unfold rzr_cond; cbn. apply Z.ltb_ge. lia.
  - destruct fuel as [|fuel]; [cbn in Hfuel; lia|].
    rewrite while_unfold
      by (unfold rzr_cond; cbn; apply Z.ltb_lt; rewrite length_app; cbn; lia).
    cbn [Draft.rzr_body]. rewrite get_app_length. cbn [bind List.filter].
    destruct (Draft.is_zero (params (gate x))) eqn:E;
      [assert (Hk : Draft.kept x = false) by (unfold Draft.kept; now rewrite E)
      |assert (Hk : Draft.kept x = true) by (unfold Draft.kept; now rewrite E)];
      rewrite Hk.
    + rewrite pop_app_length. cbn [bind].
      replace (Z.of_nat (length pre) - 1 + 1) with (Z.of_nat (length pre)) by lia.
      replace (Z.of_nat (length (pre ++ x :: rest)) - 1)
        with (Z.of_nat (length (pre ++ rest)))
        by (rewrite !length_app; cbn; lia).
      apply IH. cbn in Hfuel. lia.
    + replace (pre ++ x :: rest) with ((pre ++ [x]) ++ rest)
        by now rewrite <- app_assoc.
      replace (Z.of_nat (length pre) + 1) with (Z.of_nat (length (pre ++ [x])))
        by (rewrite length_app; cbn; lia).
      cbn [bind]. rewrite (IH (pre ++ [x]) fuel) by (cbn in Hfuel; lia).
      now rewrite <- !app_assoc.
Qed.

Lemma draft_filter (c : Circuit) :
  Draft.removeZeroRotations c = OK (set_data c (List.filter Draft.kept (data c))).
Proof.
  unfold Draft.removeZeroRotations.
  pose proof (draft_scan (data c) [] (length (data c)) (le_n _)) as H.
  cbn [app length] in H. change (Z.of_nat 0) with 0 in H.
  cbn zeta. now rewrite H.
Qed.

Lemma kept_draft_kept (x : Instr) : kept x = true -> Draft.kept x = true.
Proof.
  unfold kept, Draft.kept, is_zero_rotation, Draft.is_zero.
  destruct (params (gate x)) as [|t [|? ?]]; try reflexivity.
  destruct (t =? 0)%float; [discriminate|reflexivity].
Qed.

Lemma filter_kept_draft (d : list Instr) :
  List.filter kept (List.filter Draft.kept d) = List.filter kept d.
Proof.
  induction d as [|x d IH]; [reflexivity|]. cbn [List.filter].
  destruct (Draft.kept x) eqn:E0; cbn [List.filter].
  - now rewrite IH.
  - destruct (kept x) eqn:E; [|exact IH].
    apply kept_draft_kept in E. congruence.
Qed.

(** X17. The draft of [removeZeroRotations] always returns, and returns the
    circuit without the instructions whose parameter list is [[0.0]], the
    others unchanged and in order; it keeps the rotations by [2*PI]. The
    final [removeZeroRotations] returns on a circuit what it returns on the
    result of the draft. *)
Theorem draft_removeZeroRotations (c : Circuit) :
  exists c0,
    Draft.removeZeroRotations c = OK c0 /\
    data c0 = List.filter Draft.kept (data c) /\
    (forall nm qs, In (mkInstr (mkGate nm [two_PI]) qs) (data c) ->
                   In (mkInstr (mkGate nm [two_PI]) qs) (data c0)) /\
    removeZeroRotations c0 = removeZeroRotations c.
Proof.
  exists (set_data c (List.filter Draft.kept (data c))).
  split; [apply draft_filter|]. split; [reflexivity|]. split.
  - intros nm qs Hin. cbn [data set_data]. apply filter_In. split; [exact Hin|].
    vm_compute. reflexivity.
  - rewrite !removeZeroRotations_filter. cbn [data set_data].
    unfold set_data. cbn. now rewrite filter_kept_draft.
Qed.

(** ** Tags: an index written with [str] is read back by [int] *)

Lemma more_digits_string (d : Decimal.uint) (acc : positive) :
  Py.more_digits (Z.pos acc) (NilEmpty.string_of_uint d)
  = Some (Z.pos (Pos.of_uint_acc d acc)).
Proof.
  revert acc. induction d; intros acc; [reflexivity|..];
    cbn [NilEmpty.string_of_uint Py.more_digits Pos.of_uint_acc];
    (match goal with
     | |- context [Py.digit_of ?c] =>
         let v := eval vm_compute in (Py.digit_of c) in
         change (Py.digit_of c) with v
     end);
    cbv iota; rewrite <- IHd; f_equal; lia.
Qed.

Lemma more_digits_zero (d : Decimal.uint) :
  Py.more_digits 0 (NilEmpty.string_of_uint d) = Some (Z.of_N (Pos.of_uint d)).
Proof.
  induction d; [reflexivity|..];
    cbn [NilEmpty.string_of_uint Py.more_digits Pos.of_uint];
    (match goal with
     | |- context [Py.digit_of ?c] =>
         let v := eval vm_compute in (Py.digit_of c) in
         change (Py.digit_of c) with v
     end);
    cbv iota; [exact IHd|..]; apply more_digits_string.
Qed.

Lemma int_string_of_uint (d : Decimal.uint) :
  d <> Decimal.Nil ->
  Py.skip_space (NilEmpty.string_of_uint d) = NilEmpty.string_of_uint d /\
  Py.digits (NilEmpty.string_of_uint d) = Some (Z.of_N (Pos.of_uint d)) /\
  Py.int (NilEmpty.string_of_uint d) = OK (Z.of_N (Pos.of_uint d)).
Proof.
  intros Hd.
  assert (H1 : Py.skip_space (NilEmpty.string_of_uint d)
               = NilEmpty.string_of_uint d)
    by (destruct d; [congruence|..]; reflexivity).
  assert (H2 : Py.digits (NilEmpty.string_of_uint d)
               = Some (Z.of_N (Pos.of_uint d))).
  { rewrite <- more_digits_zero. destruct d; [congruence|..]; reflexivity. }
  split; [exact H1|]. split; [exact H2|].
  unfold Py.int. rewrite H1.
  destruct d; [congruence|..];
    cbn [NilEmpty.string_of_uint] in *; cbv beta iota; now rewrite H2.
Qed.

Lemma int_str (i : Z) : Py.int (Py.str i) = OK i.
Proof.
  unfold Py.str. destruct i as [|p|p]; [reflexivity|..]; cbn [Z.to_int].
  - unfold NilZero.string_of_int, NilZero.string_of_uint.
    pose proof (Unsigned.to_uint_nonnil p) as Hn.
    destruct (int_string_of_uint _ Hn) as (_ & _ & H).
    rewrite Unsigned.of_to in H. cbn [Z.of_N] in H.
    destruct (Pos.to_uint p); [congruence|..]; exact H.
  - unfold NilZero.string_of_int, NilZero.string_of_uint.
    pose proof (Unsigned.to_uint_nonnil p) as Hn.
    destruct (int_string_of_uint _ Hn) as (_ & H & _).
    rewrite Unsigned.of_to in H. cbn [Z.of_N] in H.
    assert (E : Py.int (String "-" (NilEmpty.string_of_uint (Pos.to_uint p)))
                = OK (Z.neg p)).
    { unfold Py.int. cbn [Py.skip_space]. 
      change (Py.is_space "-") with false. cbv iota.
      now rewrite H. }
    destruct (Pos.to_uint p); [congruence|..]; exact E.
Qed.

(** X18. The tag of a gate whose name has exactly two characters gives the
    name and the index back: its first two characters are the name, and
    [int] of the rest is the index that [str] wrote, for every integer. *)
Theorem tag_round_trip (c1 c2 : ascii) (i : Z) :
  let nm := String c1 (String c2 EmptyString) in
  let tag := String.append nm (Py.str i) in
  Py.prefix2 tag = nm /\ Py.int (Py.suffix2 tag) = OK i.
Proof.
  cbn zeta. cbn [String.append Py.prefix2 Py.suffix2]. split.
  - reflexivity.
  - apply int_str.
Qed.

(** ** A pair of cz after rotations *)

Lemma basis_rotation_plain (nq : nat) (pre : list Instr) :
  forallb (basis_rotation nq) pre = true -> forallb (plain nq) pre = true.
Proof.
  induction pre as [|x pre IH]; [reflexivity|]. cbn [forallb].
  intros H. apply andb_true_iff in H as [Hx H]. rewrite IH by exact H.
  rewrite andb_true_r. unfold basis_rotation in Hx. unfold plain.
  apply andb_true_iff in Hx as [Hn Hq]. rewrite Hq, andb_true_r.
  apply orb_true_iff in Hn as [Hn|Hn]; apply String.eqb_eq in Hn; now rewrite Hn.
Qed.

Lemma tags_not_cz (nq q : nat) (pre : list Instr) (i : Z) :
  forallb (basis_rotation nq) pre = true ->
  Forall not_cz_tag (tags_from i q pre).
Proof.
  revert i. induction pre as [|x pre IH]; intros i H; [constructor|].
  cbn [forallb] in H. apply andb_true_iff in H as [Hx H].
  cbn [tags_from]. apply Forall_app. split; [|now apply IH].
  destruct (first_qubit_is q x); [|constructor].
  constructor; [|constructor]. unfold basis_rotation in Hx.
  apply andb_true_iff in Hx as [Hn _].
  apply orb_true_iff in Hn as [Hn|Hn]; apply String.eqb_eq in Hn;
    rewrite Hn; reflexivity.
Qed.

Lemma history_top (nq q : nat) (pre : list Instr) :
  forallb (basis_rotation nq) pre = true ->
  (q < nq)%nat ->
  exists w t, history nq pre !! q = Some (w ++ [t]) /\ not_cz_tag t.
Proof.
  intros Hpre Hq. rewrite history_lookup by exact Hq.
  pose proof (tags_not_cz nq q pre 0 Hpre) as Hf.
  assert (Hall : Forall not_cz_tag (EmptyString :: tags_from 0 q pre))
    by (constructor; [reflexivity|exact Hf]).
  destruct (exists_last (l := EmptyString :: tags_from 0 q pre)) as (w & t & E);
    [discriminate|].
  rewrite E in Hall |- *. exists w, t. split; [reflexivity|].
  apply Forall_app in Hall as [_ Ht]. now apply Forall_cons in Ht as [Ht _].
Qed.

Lemma pop_app_second {A : Type} (pre rest : list A) (x y : A) :
  Py.pop (pre ++ x :: y :: rest) (Z.of_nat (length pre) + 1)
  = OK (pre ++ x :: rest).
Proof.
  replace (pre ++ x :: y :: rest) with ((pre ++ [x]) ++ y :: rest)
    by now rewrite <- app_assoc.
  replace (Z.of_nat (length pre) + 1) with (Z.of_nat (length (pre ++ [x])))
    by (rewrite length_app; cbn; lia).
  rewrite pop_app_length. now rewrite <- app_assoc.
Qed.

(** The scan over a pair of cz that follows rotations: the state after the
    pair is the state before it, the pair gone from the sequence. *)
Lemma cz_pair_steps (nq a b : nat) (pre rest : list Instr) (fuel : nat) :
  forallb (basis_rotation nq) pre = true ->
  (a < nq)%nat -> (b < nq)%nat -> a <> b ->
  while cz_cond cz_body (S (S fuel))
    (cz_at nq pre (cz a b :: cz a b :: rest))
  = while cz_cond cz_body fuel (cz_at nq pre rest).
Proof.
  intros Hpre Ha Hb Hab.
  destruct (history_top nq a pre Hpre Ha) as (wa & ta & HA & Hta).
  destruct (history_top nq b pre Hpre Hb) as (wb & tb & HB & Htb).
  assert (HL : length (history nq pre) = nq)
    by (unfold history; now rewrite length_map, length_seq).
  unfold cz_at.
  rewrite while_unfold
    by (unfold cz_cond; cbn; apply Z.ltb_lt; rewrite length_app; cbn; lia).
  rewrite (cz_step_push _ _ _ _ (cz a b) a b [] wa wb (wb ++ [tb]) ta tb);
    [|apply get_app_length|reflexivity|reflexivity|exact HA|left; exact Hta
     |rewrite list_lookup_insert_ne by exact Hab; exact HB].
  cbn [bind].
  set (t := String.append "cz" (Py.str (Z.of_nat (length pre)))).
  rewrite while_unfold
    by (unfold cz_cond; cbn; apply Z.ltb_lt; rewrite length_app; cbn; lia).
  rewrite (cz_step_cancel _ (pre ++ cz a b :: rest) (pre ++ rest) _ _ _
             (Z.of_nat (length pre)) (cz a b) a b []
             (wa ++ [ta]) (wb ++ [tb]) (wb ++ [tb]) t t t);
    [|apply get_app_second|reflexivity|reflexivity
     |rewrite list_lookup_insert_ne by congruence;
      rewrite list_lookup_insert_eq by lia; now rewrite app_assoc
     |reflexivity
     |rewrite list_lookup_insert_eq by (rewrite length_insert; lia); reflexivity
     |reflexivity
     |apply pop_app_second
     |unfold t; cbn [String.append Py.suffix2]; apply int_str
     |apply pop_app_length
     |rewrite list_lookup_insert_ne by exact Hab;
      rewrite list_lookup_insert_eq by (rewrite length_insert; lia); reflexivity].
  cbn [bind]. f_equal. f_equal.
  - apply list_eq. intros j.
    destruct (decide (j = b)) as [->|Hjb].
    + rewrite list_lookup_insert_eq by (rewrite !length_insert; lia).
      now rewrite HB.
    + rewrite list_lookup_insert_ne by congruence.
      destruct (decide (j = a)) as [->|Hja].
      * rewrite list_lookup_insert_eq by (rewrite !length_insert; lia).
        now rewrite HA.
      * now rewrite !list_lookup_insert_ne by congruence.
  - lia.
  - rewrite !length_app. cbn [length]. lia.
Qed.

(** The whole scan with and without the pair. *)
Lemma cz_pair_run (nq a b : nat) (pre rest : list Instr) :
  forallb (basis_rotation nq) pre = true ->
  (a < nq)%nat -> (b < nq)%nat -> a <> b ->
  while cz_cond cz_body (length (pre ++ cz a b :: cz a b :: rest))
    (mkCz (pre ++ cz a b :: cz a b :: rest) (replicate nq [EmptyString]) 0
       (Z.of_nat (length (pre ++ cz a b :: cz a b :: rest))))
  = while cz_cond cz_body (length (pre ++ rest))
      (mkCz (pre ++ rest) (replicate nq [EmptyString]) 0
         (Z.of_nat (length (pre ++ rest)))).
Proof.
  intros Hpre Ha Hb Hab.
  pose proof (basis_rotation_plain nq pre Hpre) as Hplain.
  pose proof (cz_plain_steps nq pre [] (cz a b :: cz a b :: rest)
                (S (S (length rest))) Hplain) as H1.
  pose proof (cz_plain_steps nq pre [] rest (length rest) Hplain) as H2.
  unfold cz_at in H1 at 1. unfold cz_at in H2 at 1.
  rewrite history_nil in H1, H2. cbn [app length] in H1, H2.
  change (Z.of_nat 0) with 0 in H1, H2.
  rewrite !length_app. cbn [length]. rewrite !length_app in H1, H2.
  cbn [length] in H1, H2.
  now rewrite H1, H2, cz_pair_steps by assumption.
Qed.

(** X19. A cz directly followed by the same cz, after a sequence of rx and
    rz and before anything: [removeDoubleCZ] returns what it returns on the
    circuit without the pair, the same sequence, the same wire history or
    the same exception. *)
Theorem removeDoubleCZ_pair_after_rotations (nq ncl a b : nat)
    (pre rest : list Instr) :
  forallb (basis_rotation nq) pre = true ->
  (a < nq)%nat -> (b < nq)%nat -> a <> b ->
  removeDoubleCZ (mkCircuit nq ncl (pre ++ cz a b :: cz a b :: rest))
  = removeDoubleCZ (mkCircuit nq ncl (pre ++ rest)).
Proof.
  intros Hpre Ha Hb Hab. unfold removeDoubleCZ. cbn [data num_qubits].
  cbn zeta. rewrite cz_pair_run by assumption.
  destruct (while _ _ _ _); reflexivity.
Qed.

Lemma removeDoubleCZ_pair_after_rotations_witness :
  removeDoubleCZ (mkCircuit 2 0 ([rx 1 0; rz 2 1] ++ cz 0 1 :: cz 0 1 :: [rx 3 0]))
  = removeDoubleCZ (mkCircuit 2 0 ([rx 1 0; rz 2 1] ++ [rx 3 0])).
Proof.
  apply (removeDoubleCZ_pair_after_rotations 2 0 0 1 [rx 1 0; rz 2 1] [rx 3 0]);
    solve [reflexivity | lia].
Defined.

Lemma forallb_filter_kept (nq : nat) (pre : list Instr) :
  forallb (basis_rotation nq) pre = true ->
  forallb (basis_rotation nq) (List.filter kept pre) = true.
Proof.
  induction pre as [|x pre IH]; [reflexivity|]. cbn [forallb List.filter].
  intros H. apply andb_true_iff in H as [Hx H].
  destruct (kept x); [cbn [forallb]; rewrite Hx|]; now apply IH.
Qed.

(** X22. The same for the driver: a cz directly followed by the same cz,
    after a sequence of rx and rz, can be struck from the input of
    [simplify] without changing what it returns. *)
Theorem simplify_pair_after_rotations (nq ncl a b : nat)
    (pre rest : list Instr) :
  forallb (basis_rotation nq) pre = true ->
  (a < nq)%nat -> (b < nq)%nat -> a <> b ->
  simplify (mkCircuit nq ncl (pre ++ cz a b :: cz a b :: rest))
  = simplify (mkCircuit nq ncl (pre ++ rest)).
Proof.
  intros Hpre Ha Hb Hab. unfold simplify.
  rewrite !removeZeroRotations_filter. cbn [bind data].
  rewrite !List.filter_app. cbn [List.filter].
  change (kept (cz a b)) with true. cbv iota.
  unfold set_data, removeDoubleCZ. cbn [num_qubits num_clbits data]. cbn zeta.
  rewrite cz_pair_run by (auto using forallb_filter_kept).
  destruct (while _ _ _ _); reflexivity.
Qed.

Lemma simplify_pair_after_rotations_witness :
  simplify (mkCircuit 2 0 ([rx 1 0; rz 2 1] ++ cz 0 1 :: cz 0 1 :: [rx 3 0]))
  = simplify (mkCircuit 2 0 ([rx 1 0; rz 2 1] ++ [rx 3 0])).
Proof.
  apply (simplify_pair_after_rotations 2 0 0 1 [rx 1 0; rz 2 1] [rx 3 0]);
    solve [reflexivity | lia].
Defined.
